(** * pg_bgzip: block-gzip (BGZF) encoding for PostgreSQL

    A shallow embedding of [src/pg.c]: the block encoder
    [bgzip_compress_block], the SQL entry points [pg_bgzip_compress] and
    [pg_bgzip_gzip_compress], the byte constants and the two packing
    helpers.

    Modelling choices.
    - A byte is a [Z]; a buffer is a [list Z]; a pointer into a buffer is
      the buffer together with an offset, or the suffix it points at.
    - [size_t], [uint32_t] and [uint16_t] arithmetic is written with its
      wrap-around ([size_t], [u32], [u16]).
    - libdeflate is not part of the repository: it is a record of functions
      ([libdeflate]) the code is parameterised by, and what the code expects
      of it is stated apart ([output_fits], [inflates], [chunk_fits]).
    - [palloc]/[repalloc] never fail (note at the head of the source file);
      memory they hand out holds arbitrary bytes ([uninit]).
    - [elog(ERROR, ...)] does not return: it is the [Raised] outcome.  Every
      call of the allocator, of libdeflate and of [elog] is recorded in a
      trace, so that statements on what happened before a failure, or on
      what was released, can be made.
    - The host stores integers least significant byte first
      ([host_order]); what [packInt16] does on the other byte order is
      shown separately. *)

From Stdlib Require Import ZArith List Lia Bool.
Import ListNotations.
Open Scope Z_scope.

(** ** Machine integers and buffers *)

Definition u16 (x : Z) : Z := x mod 2 ^ 16.
Definition u32 (x : Z) : Z := x mod 2 ^ 32.
Definition size_t (x : Z) : Z := x mod 2 ^ 64.

Definition len {A : Type} (l : list A) : Z := Z.of_nat (length l).

(** [memcpy(dst + off, src, length src)] *)
Definition memcpy (dst : list Z) (off : Z) (src : list Z) : list Z :=
  firstn (Z.to_nat off) dst ++ src ++ skipn (Z.to_nat off + length src) dst.

(** The bytes of an unsigned integer, least significant first. *)
Fixpoint le_bytes (n : nat) (x : Z) : list Z :=
  match n with
  | O => []
  | S k => x mod 256 :: le_bytes k (x / 256)
  end.

Fixpoint le_decode (bs : list Z) : Z :=
  match bs with
  | [] => 0
  | b :: r => b + 256 * le_decode r
  end.

Inductive byte_order : Set := LittleEndian | BigEndian.

(** The object representation of an [n]-byte unsigned integer. *)
Definition object_bytes (h : byte_order) (n : nat) (x : Z) : list Z :=
  match h with
  | LittleEndian => le_bytes n x
  | BigEndian => rev (le_bytes n x)
  end.

Definition bswap (n : nat) (x : Z) : Z := le_decode (rev (le_bytes n x)).

Definition htole16 (h : byte_order) (x : Z) : Z :=
  match h with LittleEndian => u16 x | BigEndian => bswap 2 (u16 x) end.

Definition htole32 (h : byte_order) (x : Z) : Z :=
  match h with LittleEndian => u32 x | BigEndian => bswap 4 (u32 x) end.

(** [packInt16]: the converted value is kept in a [uint32_t], of which the
    first two bytes are copied. *)
Definition packInt16_on (h : byte_order) (buffer : list Z) (off : Z) (value : Z)
  : list Z :=
  let value_le := u32 (htole16 h (u16 value)) in
  memcpy buffer off (firstn 2 (object_bytes h 4 value_le)).

Definition packInt32_on (h : byte_order) (buffer : list Z) (off : Z) (value : Z)
  : list Z :=
  let value_le := htole32 h (u32 value) in
  memcpy buffer off (firstn 4 (object_bytes h 4 value_le)).

Definition host_order : byte_order := LittleEndian.

Definition packInt16 := packInt16_on host_order.
Definition packInt32 := packInt32_on host_order.

(** ** Constants *)

Definition BGZIP_BLOCK_SIZE : Z := 0xff00.
Definition BGZIP_MAX_BLOCK_SIZE : Z := 0x10000.
Definition BLOCK_HEADER_LENGTH : Z := 18.
Definition BLOCK_FOOTER_LENGTH : Z := 8.
Definition VARHDRSZ : Z := 4.

(** ["\037\213\010\4\0\0\0\0\0\377\6\0\102\103\2\0\0\0"] and its
    terminating NUL: 19 bytes. *)
Definition g_magic : list Z :=
  [31; 139; 8; 4; 0; 0; 0; 0; 0; 255; 6; 0; 66; 67; 2; 0; 0; 0; 0].

(** ["\037\213\010\4\0\0\0\0\0\377\6\0\102\103\2\0\033\0\3\0\0\0\0\0\0\0\0\0"]:
    28 bytes, the array has no room for the NUL. *)
Definition eof_marker : list Z :=
  [31; 139; 8; 4; 0; 0; 0; 0; 0; 255; 6; 0; 66; 67; 2; 0;
   27; 0; 3; 0; 0; 0; 0; 0; 0; 0; 0; 0].

(** ["\033\0\3\0\0\0\0\0\0\0\0\0"], the tail of the empty block. *)
Definition empty_block_tail : list Z := [27; 0; 3; 0; 0; 0; 0; 0; 0; 0; 0; 0].

(** ** Outcomes, diagnostics and the trace *)

Inductive elevel : Set := NOTICE | WARNING | ERROR.

Inductive message : Set :=
| Invalid_number_of_arguments (got : Z)
    (* "Invalid number of arguments: expected 2 or 3, got %d" *)
| Null_arguments_not_accepted
    (* "Null arguments not accepted" *)
| Invalid_compression_level (level : Z)
    (* "invalid compression level: %d" *)
| Error_compressing_the_block_at_position (position : Z)
    (* "Error compressing the block at position %zu" *)
| Deflate_compress_failed
    (* "libdeflate_deflate_compress failed" *)
| Gzip_compress_failed
    (* "libdeflate_gzip_compress failed" *)
| Compress_with_EOF.
    (* "bgzip_compress with EOF!" *)

(** The diagnostics for arguments that are refused. *)
Definition invalid_argument (m : message) : Prop :=
  match m with
  | Invalid_number_of_arguments _ => True
  | Null_arguments_not_accepted => True
  | Invalid_compression_level _ => True
  | _ => False
  end.

Inductive event : Set :=
| Elog (lvl : elevel) (m : message)
| Epalloc (size : Z)
| Erepalloc (size : Z)
| Epfree
| Ealloc_compressor (level : Z)
| Efree_compressor
| Edeflate_compress (slen avail : Z)
| Egzip_compress (ilen avail : Z)
| Ecrc32 (slen : Z).

Inductive outcome (A : Type) : Type :=
| Ok (a : A)
| Raised (m : message)
| Unfinished.

Arguments Ok {A} a.
Arguments Raised {A} m.
Arguments Unfinished {A}.

(** A computation: the trace it leaves and how it ends. *)
Definition M (A : Type) : Type := (list event * outcome A)%type.

Definition ret {A : Type} (a : A) : M A := ([], Ok a).

Definition bind {A B : Type} (m : M A) (f : A -> M B) : M B :=
  match m with
  | (t, Ok a) => let (t', r) := f a in (t ++ t', r)
  | (t, Raised e) => (t, Raised e)
  | (t, Unfinished) => (t, Unfinished)
  end.

Definition emit (e : event) : M unit := ([e], Ok tt).

(** [elog(ERROR, ...)] leaves the function. *)
Definition elog_error {A : Type} (m : message) : M A :=
  ([Elog ERROR m], Raised m).

Definition elog (lvl : elevel) (m : message) : M unit := emit (Elog lvl m).

Declare Scope m_scope.
Delimit Scope m_scope with M.
Notation "x <- m ;; k" := (bind m (fun x => k))
  (at level 61, m at next level, right associativity) : m_scope.
Notation "' p <- m ;; k" := (bind m (fun x => match x with p => k end))
  (at level 61, p pattern, m at next level, right associativity) : m_scope.
Notation "m ;;; k" := (bind m (fun _ => k))
  (at level 61, right associativity) : m_scope.
Open Scope m_scope.

Definition trace {A : Type} (m : M A) : list event := fst m.
Definition result {A : Type} (m : M A) : outcome A := snd m.

(** ** libdeflate *)

Record libdeflate : Type := {
  compressor : Type;
  (** [NULL] is [None]. *)
  libdeflate_alloc_compressor_ex : Z -> option compressor;
  (** compressor, input, bytes available: the bytes of the stream written;
      their number is the value returned, [0] for a failure.  What a call
      may leave in the room given to it besides the stream it reports is
      not part of this interface: no statement below is about those
      bytes. *)
  libdeflate_deflate_compress : compressor -> list Z -> Z -> list Z;
  libdeflate_gzip_compress : compressor -> list Z -> Z -> list Z;
  libdeflate_crc32 : Z -> list Z -> Z
}.

(** ** The host: arguments and values *)

Inductive Datum : Type :=
| Bytea (data : list Z)
| Null.

(** [PG_NARGS()], and for each argument whether it is null ([None]) and
    its value. *)
Record FunctionCallInfo : Type := {
  nargs : Z;
  arg0 : option (list Z);
  arg1 : option Z;
  arg2 : option bool
}.

Section Code.

Variable lib : libdeflate.

(** Contents of memory as the allocator hands it out. *)
Variable uninit : nat -> Z.

Definition fresh (from n : nat) : list Z := map uninit (seq from n).

(** [palloc(size)] of a [bytea]: its data area. *)
Definition palloc (size : Z) : list Z :=
  fresh 0 (Z.to_nat (size - VARHDRSZ)).

(** [repalloc(buf, size)] of a [bytea]: the data area keeps its bytes up
    to the smaller of the two sizes. *)
Definition repalloc (buf : list Z) (size : Z) : list Z :=
  let n := Z.to_nat (size - VARHDRSZ) in
  firstn n buf ++ fresh (length buf) (n - length buf).

(** *** bgzip_compress_block

    [dst] is the memory from the destination pointer on; the result is
    the value returned, that memory and [*dlen]. *)
Definition bgzip_compress_block (dst : list Z) (dlen : Z) (src : list Z)
    (level : Z) : M (Z * list Z * Z) :=
  let slen := len src in
  if slen =? 0 then
    if dlen <? 28 then ret (-1, dst, dlen)
    else
      let dst := memcpy dst 0 (firstn 16 g_magic) in
      let dst := memcpy dst 16 empty_block_tail in
      ret (0, dst, 28)
  else
    emit (Ealloc_compressor level) ;;;
    match libdeflate_alloc_compressor_ex lib level with
    | None => ret (-1, dst, dlen)
    | Some z =>
        let avail := size_t (dlen - BLOCK_HEADER_LENGTH - BLOCK_FOOTER_LENGTH) in
        let written := libdeflate_deflate_compress lib z src avail in
        emit (Edeflate_compress slen avail) ;;;
        let dst := memcpy dst BLOCK_HEADER_LENGTH written in
        let clen := len written in
        if clen <=? 0 then
          elog WARNING Deflate_compress_failed ;;;
          emit Efree_compressor ;;;
          ret (-1, dst, dlen)
        else
          let dlen := size_t (clen + BLOCK_HEADER_LENGTH + BLOCK_FOOTER_LENGTH) in
          emit Efree_compressor ;;;
          let dst := memcpy dst 0 (firstn (Z.to_nat BLOCK_HEADER_LENGTH) g_magic) in
          let dst := packInt16 dst 16 (size_t (dlen - 1)) in
          emit (Ecrc32 slen) ;;;
          let crc := u32 (libdeflate_crc32 lib 0 src) in
          let dst := packInt32 dst (size_t (dlen - 8)) crc in
          let dst := packInt32 dst (size_t (dlen - 4)) slen in
          ret (0, dst, dlen)
    end.

(** *** pg_bgzip_compress *)

(** The [while (in_size > 0)] loop.  [inp] is the input from the [in]
    pointer on, so that [in_size] is its length.  The loop is run on a
    budget of iterations; [pg_bgzip_compress] gives it one per input byte,
    which is never used up ([compress_loop_finishes]). *)
Fixpoint compress_loop (budget : nat) (compression_level : Z) (inp : list Z)
    (compressed : list Z) (compressed_size : Z) : M (list Z * Z) :=
  let in_size := len inp in
  if in_size >? 0 then
    match budget with
    | O => ([], Unfinished)
    | S budget' =>
        let isize :=
          if in_size <? BGZIP_BLOCK_SIZE then in_size else BGZIP_BLOCK_SIZE in
        let dlen := BGZIP_MAX_BLOCK_SIZE in
        let size := compressed_size + dlen + VARHDRSZ in
        emit (Erepalloc size) ;;;
        let compressed := repalloc compressed size in
        '(rc, dst, dlen) <-
          bgzip_compress_block (skipn (Z.to_nat compressed_size) compressed)
            dlen (firstn (Z.to_nat isize) inp) compression_level ;;
        let compressed := firstn (Z.to_nat compressed_size) compressed ++ dst in
        (if rc =? 0 then ret tt
         else elog_error (Error_compressing_the_block_at_position in_size)) ;;;
        compress_loop budget' compression_level
          (skipn (Z.to_nat isize) inp) compressed (compressed_size + dlen)
    end
  else ret (compressed, compressed_size).

Definition pg_bgzip_compress (fcinfo : FunctionCallInfo) : M Datum :=
  if negb (nargs fcinfo =? 2) && negb (nargs fcinfo =? 3) then
    elog_error (Invalid_number_of_arguments (nargs fcinfo))
  else
    match arg0 fcinfo, arg1 fcinfo with
    | Some uncompressed, Some compression_level =>
        let with_eof :=
          if nargs fcinfo =? 3 then
            match arg2 fcinfo with Some b => b | None => false end
          else false in
        if (compression_level <? -1) || (compression_level >? 9) then
          elog_error (Invalid_compression_level compression_level)
        else
          emit (Epalloc VARHDRSZ) ;;;
          let compressed := palloc VARHDRSZ in
          '(compressed, compressed_size) <-
            compress_loop (length uncompressed) compression_level
              uncompressed compressed 0 ;;
          '(compressed, compressed_size) <-
            (if with_eof : bool then
               elog NOTICE Compress_with_EOF ;;;
               let size := compressed_size + 28 + VARHDRSZ in
               emit (Erepalloc size) ;;;
               let compressed := repalloc compressed size in
               let compressed := memcpy compressed compressed_size eof_marker in
               ret (compressed, compressed_size + 28)
             else ret (compressed, compressed_size)) ;;
          ret (Bytea (firstn (Z.to_nat compressed_size) compressed))
    | _, _ => elog_error Null_arguments_not_accepted
    end.

(** *** pg_bgzip_gzip_compress *)

(** The [bailout] label. *)
Definition bailout (z : option (compressor lib)) : M Datum :=
  emit Epfree ;;;
  (match z with Some _ => emit Efree_compressor | None => ret tt end) ;;;
  ret Null.

Definition pg_bgzip_gzip_compress (fcinfo : FunctionCallInfo) : M Datum :=
  match arg0 fcinfo, arg1 fcinfo with
  | Some uncompressed, Some compression_level =>
      if (compression_level <? -1) || (compression_level >? 9) then
        elog_error (Invalid_compression_level compression_level)
      else
        let ilen := len uncompressed in
        let dlen := ilen + BLOCK_HEADER_LENGTH + BLOCK_FOOTER_LENGTH in
        emit (Epalloc (dlen + VARHDRSZ)) ;;;
        let compressed := palloc (dlen + VARHDRSZ) in
        emit (Ealloc_compressor compression_level) ;;;
        match libdeflate_alloc_compressor_ex lib compression_level with
        | None => bailout None
        | Some z =>
            let written := libdeflate_gzip_compress lib z uncompressed dlen in
            emit (Egzip_compress ilen dlen) ;;;
            let compressed := memcpy compressed 0 written in
            let dlen := len written in
            if dlen <=? 0 then
              elog WARNING Gzip_compress_failed ;;;
              bailout (Some z)
            else
              emit Efree_compressor ;;;
              ret (Bytea (firstn (Z.to_nat dlen) compressed))
        end
  | _, _ => elog_error Null_arguments_not_accepted
  end.

End Code.

(** ** The entry points with their arguments given

    [pg_bgzip_compress] called with a buffer, a level and the flag, and
    [pg_bgzip_gzip_compress] called with a buffer and a level, none of
    them null. *)
Definition compress_blocked (lib : libdeflate) (uninit : nat -> Z)
    (buffer : list Z) (level : Z) (append_eof : bool) : M Datum :=
  pg_bgzip_compress lib uninit
    {| nargs := 3; arg0 := Some buffer; arg1 := Some level;
       arg2 := Some append_eof |}.

Definition compress_gzip (lib : libdeflate) (uninit : nat -> Z)
    (buffer : list Z) (level : Z) : M Datum :=
  pg_bgzip_gzip_compress lib uninit
    {| nargs := 2; arg0 := Some buffer; arg1 := Some level; arg2 := None |}.

(** ** What the code expects of libdeflate

    [libdeflate_deflate_compress] never writes more than the bytes it was
    given ([output_fits]), and what it writes is a DEFLATE stream of its
    input: a reader's [inflate] gives the input back ([inflates]). *)
Definition output_fits (lib : libdeflate) : Prop :=
  forall z src avail,
    0 <= avail -> len (libdeflate_deflate_compress lib z src avail) <= avail.

Definition inflates (lib : libdeflate) (inflate : list Z -> option (list Z))
  : Prop :=
  forall z src avail,
    libdeflate_deflate_compress lib z src avail <> [] ->
    inflate (libdeflate_deflate_compress lib z src avail) = Some src.

(** The remark next to [BGZIP_BLOCK_SIZE]: the compressed form of a chunk
    fits in a block. *)
Definition chunk_fits (lib : libdeflate) : Prop :=
  forall z src, 0 < len src <= BGZIP_BLOCK_SIZE ->
    libdeflate_deflate_compress lib z src
      (BGZIP_MAX_BLOCK_SIZE - BLOCK_HEADER_LENGTH - BLOCK_FOOTER_LENGTH) <> [].

(** ** The block format, as a reader sees it

    The layout drawn above [g_magic] in the source: sixteen fixed bytes,
    the block length less one in two bytes, the DEFLATE stream, the CRC-32
    and the length of the data in four bytes each. *)

Definition bgzf_block (lib : libdeflate) (z : compressor lib) (chunk : list Z)
  : list Z :=
  let payload :=
    libdeflate_deflate_compress lib z chunk
      (BGZIP_MAX_BLOCK_SIZE - BLOCK_HEADER_LENGTH - BLOCK_FOOTER_LENGTH) in
  firstn 16 g_magic
  ++ le_bytes 2 (len payload + BLOCK_HEADER_LENGTH + BLOCK_FOOTER_LENGTH - 1)
  ++ payload
  ++ le_bytes 4 (u32 (libdeflate_crc32 lib 0 chunk))
  ++ le_bytes 4 (u32 (len chunk)).

(** The DEFLATE stream of a chunk, in the room a block leaves for it. *)
Definition payload_of (lib : libdeflate) (z : compressor lib)
    (chunk : list Z) : list Z :=
  libdeflate_deflate_compress lib z chunk
    (BGZIP_MAX_BLOCK_SIZE - BLOCK_HEADER_LENGTH - BLOCK_FOOTER_LENGTH).

(** The fields of a block. *)
Definition block_BSIZE (b : list Z) : Z := le_decode (firstn 2 (skipn 16 b)).
Definition block_payload (b : list Z) : list Z :=
  firstn (length b - 26) (skipn 18 b).
Definition block_CRC32 (b : list Z) : Z :=
  le_decode (firstn 4 (skipn (length b - 8) b)).
Definition block_ISIZE (b : list Z) : Z :=
  le_decode (firstn 4 (skipn (length b - 4) b)).

(** What a block owes its reader: BSIZE is its length less one, it is
    header, payload and footer, and it is not longer than a block may be. *)
Definition block_well_formed (b : list Z) : Prop :=
  block_BSIZE b = len b - 1
  /\ len b = BLOCK_HEADER_LENGTH + len (block_payload b) + BLOCK_FOOTER_LENGTH
  /\ len b <= BGZIP_MAX_BLOCK_SIZE.

Fixpoint bytes_eqb (a b : list Z) : bool :=
  match a, b with
  | [], [] => true
  | x :: a', y :: b' => (x =? y) && bytes_eqb a' b'
  | _, _ => false
  end.

(** Cut a stream into blocks at the lengths their headers give. *)
Fixpoint bgzf_split (budget : nat) (s : list Z) : option (list (list Z)) :=
  match s with
  | [] => Some []
  | _ :: _ =>
      match budget with
      | O => None
      | S budget' =>
          let blen := block_BSIZE s + 1 in
          if (blen <? 26) || (len s <? blen) then None
          else
            match bgzf_split budget' (skipn (Z.to_nat blen) s) with
            | Some bs => Some (firstn (Z.to_nat blen) s :: bs)
            | None => None
            end
      end
  end.

(** Read one block: check the fixed bytes, inflate, check the footer. *)
Definition bgzf_block_decode (lib : libdeflate)
    (inflate : list Z -> option (list Z)) (b : list Z) : option (list Z) :=
  if bytes_eqb (firstn 16 b) (firstn 16 g_magic) then
    match inflate (block_payload b) with
    | Some data =>
        if (block_CRC32 b =? u32 (libdeflate_crc32 lib 0 data))
           && (block_ISIZE b =? u32 (len data))
        then Some data else None
    | None => None
    end
  else None.

Fixpoint decode_all (lib : libdeflate) (inflate : list Z -> option (list Z))
    (bs : list (list Z)) : option (list (list Z)) :=
  match bs with
  | [] => Some []
  | b :: bs' =>
      match bgzf_block_decode lib inflate b, decode_all lib inflate bs' with
      | Some d, Some ds => Some (d :: ds)
      | _, _ => None
      end
  end.

(** The data of each block of a stream, in order. *)
Definition bgzf_chunks (lib : libdeflate) (inflate : list Z -> option (list Z))
    (s : list Z) : option (list (list Z)) :=
  match bgzf_split (length s) s with
  | Some bs => decode_all lib inflate bs
  | None => None
  end.

Definition bgzf_decode (lib : libdeflate) (inflate : list Z -> option (list Z))
    (s : list Z) : option (list Z) :=
  option_map (@concat Z) (bgzf_chunks lib inflate s).

(** The slices of a buffer, by index: slice [i] is the [BGZIP_BLOCK_SIZE]
    bytes from [i * BGZIP_BLOCK_SIZE] on, fewer at the end. *)
Definition ceil_div (a b : Z) : Z := (a + b - 1) / b.

Definition slice (B : list Z) (i : nat) : list Z :=
  firstn (Z.to_nat BGZIP_BLOCK_SIZE) (skipn (i * Z.to_nat BGZIP_BLOCK_SIZE) B).

Definition slices (B : list Z) : list (list Z) :=
  map (slice B) (seq 0 (Z.to_nat (ceil_div (len B) BGZIP_BLOCK_SIZE))).

(** ** The blocks of a stream, pass by pass

    What the loop of [pg_bgzip_compress] asks of the encoder at each pass,
    and what stops it: the block of each chunk in turn, or the error raised
    at the first chunk for which there is no compressor or no output. *)
Fixpoint emitted_blocks (lib : libdeflate) (budget : nat) (level : Z)
    (inp : list Z) : outcome (list (list Z)) :=
  match inp with
  | [] => Ok []
  | _ :: _ =>
      match budget with
      | O => Unfinished
      | S budget' =>
          let chunk := firstn (Z.to_nat BGZIP_BLOCK_SIZE) inp in
          match libdeflate_alloc_compressor_ex lib level with
          | None => Raised (Error_compressing_the_block_at_position (len inp))
          | Some z =>
              match
                libdeflate_deflate_compress lib z chunk
                  (BGZIP_MAX_BLOCK_SIZE - BLOCK_HEADER_LENGTH
                   - BLOCK_FOOTER_LENGTH)
              with
              | [] => Raised (Error_compressing_the_block_at_position (len inp))
              | _ :: _ =>
                  match
                    emitted_blocks lib budget' level
                      (skipn (Z.to_nat BGZIP_BLOCK_SIZE) inp)
                  with
                  | Ok bl => Ok (bgzf_block lib z chunk :: bl)
                  | r => r
                  end
              end
          end
      end
  end.

(** The same chunks, without the encoder. *)
Fixpoint chunks (budget : nat) (inp : list Z) : list (list Z) :=
  match inp with
  | [] => []
  | _ :: _ =>
      match budget with
      | O => []
      | S budget' =>
          firstn (Z.to_nat BGZIP_BLOCK_SIZE) inp
          :: chunks budget' (skipn (Z.to_nat BGZIP_BLOCK_SIZE) inp)
      end
  end.

(** The data blocks of a buffer: the block of each of its slices. *)
Definition data_blocks (lib : libdeflate) (level : Z) (B : list Z)
  : list (list Z) :=
  match libdeflate_alloc_compressor_ex lib level with
  | Some z => map (bgzf_block lib z) (slices B)
  | None => []
  end.

(** All the blocks of a stream: the data blocks and the marker. *)
Definition stream_blocks (lib : libdeflate) (level : Z) (B : list Z)
    (append_eof : bool) : list (list Z) :=
  data_blocks lib level B ++ (if append_eof then [eof_marker] else []).

(** ** A libdeflate that stores

    An instance of the interface to run the code on: DEFLATE with stored
    blocks only (RFC 1951, 3.2.4), which is what libdeflate documents for
    level 0, used here at every level; the gzip member of RFC 1952 around
    it; the CRC-32 of RFC 1952; levels 0 to 12, outside of which
    libdeflate documents that no compressor is allocated. *)
Module StoredDeflate.

Definition stored_block (final : bool) (data : list Z) : list Z :=
  (if final then 1 else 0)
  :: le_bytes 2 (len data) ++ le_bytes 2 (65535 - len data) ++ data.

Fixpoint stored_blocks (budget : nat) (data : list Z) : list Z :=
  match budget with
  | O => stored_block true data
  | S b =>
      if len data <=? 65535 then stored_block true data
      else stored_block false (firstn (Z.to_nat 65535) data)
           ++ stored_blocks b (skipn (Z.to_nat 65535) data)
  end.

Definition deflate (data : list Z) : list Z :=
  stored_blocks (length data) data.

Definition alloc_compressor (level : Z) : option Z :=
  if (0 <=? level) && (level <=? 12) then Some level else None.

Definition deflate_compress (z : Z) (src : list Z) (avail : Z) : list Z :=
  let out := deflate src in
  if len out <=? avail then out else [].

Definition crc32_bit (c : Z) : Z :=
  if Z.testbit c 0 then Z.lxor (Z.shiftr c 1) 0xEDB88320 else Z.shiftr c 1.

Definition crc32_byte (c b : Z) : Z :=
  let c := Z.lxor c b in
  crc32_bit (crc32_bit (crc32_bit (crc32_bit
    (crc32_bit (crc32_bit (crc32_bit (crc32_bit c))))))).

Definition crc32 (crc : Z) (data : list Z) : Z :=
  Z.lxor (fold_left crc32_byte data (Z.lxor crc 0xFFFFFFFF)) 0xFFFFFFFF.

Definition gzip_header : list Z := [31; 139; 8; 0; 0; 0; 0; 0; 0; 255].

Definition gzip_compress (z : Z) (src : list Z) (avail : Z) : list Z :=
  if avail <=? 18 then []
  else
    match deflate_compress z src (avail - 18) with
    | [] => []
    | d => gzip_header ++ d ++ le_bytes 4 (crc32 0 src) ++ le_bytes 4 (u32 (len src))
    end.

Definition api : libdeflate := {|
  compressor := Z;
  libdeflate_alloc_compressor_ex := alloc_compressor;
  libdeflate_deflate_compress := deflate_compress;
  libdeflate_gzip_compress := gzip_compress;
  libdeflate_crc32 := crc32
|}.

Fixpoint inflate_blocks (budget : nat) (s : list Z) : option (list Z) :=
  match budget with
  | O => None
  | S b =>
      match s with
      | h :: l0 :: l1 :: n0 :: n1 :: rest =>
          let n := l0 + 256 * l1 in
          if (n0 + 256 * n1 =? 65535 - n) && (n <=? len rest) then
            if h =? 1 then (if len rest =? n then Some rest else None)
            else if h =? 0 then
              match inflate_blocks b (skipn (Z.to_nat n) rest) with
              | Some d => Some (firstn (Z.to_nat n) rest ++ d)
              | None => None
              end
            else None
          else None
      | _ => None
      end
  end.

(** Stored blocks, and the two bytes [03 00] of an empty block with fixed
    codes, which the empty BGZF block carries. *)
Definition inflate (s : list Z) : option (list Z) :=
  if bytes_eqb s [3; 0] then Some [] else inflate_blocks (length s) s.

(** Read a gzip member written by [gzip_compress]. *)
Definition gunzip (s : list Z) : option (list Z) :=
  if bytes_eqb (firstn 10 s) gzip_header && (18 <=? len s) then
    match inflate (firstn (length s - 18) (skipn 10 s)) with
    | Some data =>
        if (le_decode (firstn 4 (skipn (length s - 8) s)) =? crc32 0 data)
           && (le_decode (skipn (length s - 4) s) =? u32 (len data))
        then Some data else None
    | None => None
    end
  else None.

End StoredDeflate.

(** ** Reading a trace *)

Definition is_alloc_compressor (e : event) : bool :=
  match e with Ealloc_compressor _ => true | _ => false end.

Definition is_free_compressor (e : event) : bool :=
  match e with Efree_compressor => true | _ => false end.

Definition count_events (p : event -> bool) (t : list event) : nat :=
  length (filter p t).

(** What a call of [pg_bgzip_compress] may do: libdeflate is asked to
    deflate between 1 and [BGZIP_BLOCK_SIZE] bytes into the room a block
    leaves, a CRC-32 is taken of as many bytes, and neither [pfree] nor the
    gzip compression is called. *)
Definition block_path_event (e : event) : Prop :=
  match e with
  | Edeflate_compress slen avail =>
      0 < slen <= BGZIP_BLOCK_SIZE
      /\ avail = BGZIP_MAX_BLOCK_SIZE - BLOCK_HEADER_LENGTH - BLOCK_FOOTER_LENGTH
  | Ecrc32 slen => 0 < slen <= BGZIP_BLOCK_SIZE
  | Egzip_compress _ _ => False
  | Epfree => False
  | _ => True
  end.

(** [libdeflate_gzip_compress] never writes more than the bytes it was
    given. *)
Definition gzip_output_fits (lib : libdeflate) : Prop :=
  forall z src avail,
    0 <= avail -> len (libdeflate_gzip_compress lib z src avail) <= avail.

(** * Properties *)

(** ** The monad *)

Lemma result_bind (A B : Type) (m : M A) (f : A -> M B) :
  result (bind m f) =
  match result m with
  | Ok a => result (f a)
  | Raised e => Raised e
  | Unfinished => Unfinished
  end.
Proof.
  destruct m as [t [a | e |]]; simpl; auto.
  destruct (f a); reflexivity.
Qed.

Lemma trace_bind (A B : Type) (m : M A) (f : A -> M B) :
  trace (bind m f) =
  trace m ++ match result m with Ok a => trace (f a) | _ => [] end.
Proof.
  destruct m as [t [a | e |]]; simpl; auto using app_nil_r.
  destruct (f a); reflexivity.
Qed.

Lemma result_emit_bind (B : Type) (e : event) (k : unit -> M B) :
  result (bind (emit e) k) = result (k tt).
Proof. rewrite result_bind. reflexivity. Qed.

Lemma result_elog_bind (B : Type) (l : elevel) (m : message) (k : unit -> M B) :
  result (bind (elog l m) k) = result (k tt).
Proof. rewrite result_bind. reflexivity. Qed.

(** ** Buffers *)

Lemma len_app {A : Type} (a b : list A) : len (a ++ b) = len a + len b.
Proof. unfold len. rewrite length_app. lia. Qed.

Lemma len_nonneg {A : Type} (a : list A) : 0 <= len a.
Proof. unfold len. lia. Qed.

Lemma len_nil_iff {A : Type} (a : list A) : len a = 0 <-> a = [].
Proof.
  unfold len. destruct a; simpl; split; intro H; try reflexivity; try lia.
  discriminate.
Qed.

Lemma length_le_bytes (n : nat) (x : Z) : length (le_bytes n x) = n.
Proof. revert x. induction n; simpl; intros; auto. Qed.

(** Overwriting the middle part of a buffer. *)
Lemma memcpy_middle (a b c s : list Z) (off : Z) :
  Z.to_nat off = length a -> length s = length b ->
  memcpy (a ++ b ++ c) off s = a ++ s ++ c.
Proof.
  intros Ha Hs. unfold memcpy. rewrite Ha, Hs.
  rewrite firstn_app, firstn_all, Nat.sub_diag, firstn_O, app_nil_r.
  rewrite skipn_app.
  rewrite (skipn_all2 a) by lia.
  replace (length a + length b - length a)%nat with (length b) by lia.
  rewrite skipn_app, (skipn_all2 b), Nat.sub_diag by lia.
  reflexivity.
Qed.

Lemma memcpy_front (b c s : list Z) :
  length s = length b -> memcpy (b ++ c) 0 s = s ++ c.
Proof. intro H. apply (memcpy_middle [] b c s 0); auto. Qed.

(** A buffer of [n] bytes or more starts with [n] bytes. *)
Lemma buffer_split (d : list Z) (n : nat) :
  (n <= length d)%nat -> exists a r, d = a ++ r /\ length a = n /\ r = skipn n d.
Proof.
  intro H. exists (firstn n d), (skipn n d).
  rewrite firstn_skipn, length_firstn. repeat split; auto; lia.
Qed.

(** ** Packing integers *)

Lemma le_decode_le_bytes (n : nat) (x : Z) :
  0 <= x < 256 ^ Z.of_nat n -> le_decode (le_bytes n x) = x.
Proof.
  revert x. induction n; intros x Hx.
  - simpl in *. lia.
  - cbn [le_bytes le_decode]. rewrite IHn.
    + pose proof (Z.div_mod x 256). lia.
    + rewrite Nat2Z.inj_succ, Z.pow_succ_r in Hx by lia.
      split.
      * apply Z.div_pos; lia.
      * apply Z.div_lt_upper_bound; lia.
Qed.

Lemma u32_range (x : Z) : 0 <= u32 x < 256 ^ 4.
Proof. unfold u32. change (256 ^ 4) with (2 ^ 32). apply Z.mod_pos_bound. lia. Qed.

Lemma u32_idem (x : Z) : u32 (u32 x) = u32 x.
Proof. unfold u32. apply Z.mod_mod. lia. Qed.

Lemma packInt16_bytes (buffer : list Z) (off v : Z) :
  0 <= v < 65536 -> packInt16 buffer off v = memcpy buffer off (le_bytes 2 v).
Proof.
  intro Hv. unfold packInt16, packInt16_on, host_order, htole16, object_bytes.
  unfold u16, u32. rewrite !(Z.mod_small v (2 ^ 16)) by lia.
  rewrite (Z.mod_small v (2 ^ 32)) by lia. reflexivity.
Qed.

Lemma packInt32_bytes (buffer : list Z) (off v : Z) :
  packInt32 buffer off v = memcpy buffer off (le_bytes 4 (u32 v)).
Proof.
  unfold packInt32, packInt32_on, host_order, htole32, object_bytes.
  unfold u32. rewrite Z.mod_mod by lia. reflexivity.
Qed.

(** On a host that stores the most significant byte first, the two bytes
    [packInt16] copies are the upper half of the [uint32_t]: zero. *)
Lemma packInt16_big_endian (buffer : list Z) (off v : Z) :
  packInt16_on BigEndian buffer off v = memcpy buffer off [0; 0].
Proof.
  unfold packInt16_on, htole16, object_bytes, bswap.
  set (w := u16 v).
  assert (Hw : 0 <= w < 65536) by (apply Z.mod_pos_bound; lia).
  assert (Hww : u16 w = w) by (unfold u16; apply Z.mod_small; lia).
  rewrite Hww. cbn [le_bytes rev app le_decode].
  set (s := w / 256 mod 256 + 256 * (w mod 256 + 256 * 0)).
  assert (Hs : 0 <= s < 65536).
  { pose proof (Z.mod_pos_bound (w / 256) 256).
    pose proof (Z.mod_pos_bound w 256). lia. }
  unfold u32. rewrite (Z.mod_small s (2 ^ 32)) by lia.
  f_equal.
  assert (H1 : s / 256 / 256 = 0).
  { rewrite Z.div_div by lia. apply Z.div_small. lia. }
  rewrite H1. cbn [firstn]. reflexivity.
Qed.

(** ** The block encoder *)

Section Encoder.

Variable lib : libdeflate.

Lemma bgzip_compress_block_never_raises (dst : list Z) (dlen : Z)
    (src : list Z) (level : Z) :
  exists r, result (bgzip_compress_block lib dst dlen src level) = Ok r.
Proof.
  unfold bgzip_compress_block.
  destruct (len src =? 0).
  - destruct (dlen <? 28); eexists; reflexivity.
  - rewrite result_emit_bind.
    destruct (libdeflate_alloc_compressor_ex lib level) as [z |].
    + rewrite result_emit_bind.
      destruct (len (libdeflate_deflate_compress lib z src _) <=? 0).
      * rewrite result_elog_bind, result_emit_bind. eexists; reflexivity.
      * rewrite !result_emit_bind. eexists; reflexivity.
    + eexists; reflexivity.
Qed.

(** No compressor: the encoder returns [-1] and leaves the buffer. *)
Lemma bgzip_compress_block_no_compressor (dst : list Z) (dlen : Z)
    (src : list Z) (level : Z) :
  src <> [] ->
  libdeflate_alloc_compressor_ex lib level = None ->
  result (bgzip_compress_block lib dst dlen src level) = Ok (-1, dst, dlen).
Proof.
  intros Hsrc Hz. unfold bgzip_compress_block.
  assert (Hslen : (len src =? 0) = false)
    by (apply Z.eqb_neq; rewrite len_nil_iff; exact Hsrc).
  rewrite Hslen, result_emit_bind, Hz. reflexivity.
Qed.

(** Nothing written by libdeflate: the encoder returns [-1]. *)
Lemma bgzip_compress_block_no_output (dst : list Z) (dlen : Z)
    (src : list Z) (level : Z) (z : compressor lib) :
  src <> [] ->
  libdeflate_alloc_compressor_ex lib level = Some z ->
  libdeflate_deflate_compress lib z src
    (size_t (dlen - BLOCK_HEADER_LENGTH - BLOCK_FOOTER_LENGTH)) = [] ->
  exists dst', result (bgzip_compress_block lib dst dlen src level)
               = Ok (-1, dst', dlen).
Proof.
  intros Hsrc Hz Hw. unfold bgzip_compress_block.
  assert (Hslen : (len src =? 0) = false)
    by (apply Z.eqb_neq; rewrite len_nil_iff; exact Hsrc).
  rewrite Hslen, result_emit_bind, Hz, result_emit_bind, Hw.
  change (len (@nil Z) <=? 0) with true. cbv iota.
  rewrite result_elog_bind, result_emit_bind. eexists; reflexivity.
Qed.

(** The encoder, given a whole block of room, writes the block of the
    format and nothing beyond it. *)
Lemma bgzip_compress_block_writes_block (dst src : list Z) (level : Z)
    (z : compressor lib) :
  src <> [] ->
  libdeflate_alloc_compressor_ex lib level = Some z ->
  let payload :=
    libdeflate_deflate_compress lib z src
      (BGZIP_MAX_BLOCK_SIZE - BLOCK_HEADER_LENGTH - BLOCK_FOOTER_LENGTH) in
  payload <> [] ->
  len payload <= BGZIP_MAX_BLOCK_SIZE - BLOCK_HEADER_LENGTH - BLOCK_FOOTER_LENGTH ->
  (length payload + 26 <= length dst)%nat ->
  result (bgzip_compress_block lib dst BGZIP_MAX_BLOCK_SIZE src level) =
  Ok (0, bgzf_block lib z src ++ skipn (length payload + 26) dst,
      len payload + 26).
Proof.
  intros Hsrc Hz payload Hp Hfit Hdst.
  unfold bgzip_compress_block.
  assert (Hslen : (len src =? 0) = false)
    by (apply Z.eqb_neq; rewrite len_nil_iff; exact Hsrc).
  rewrite Hslen, result_emit_bind, Hz.
  replace (size_t (BGZIP_MAX_BLOCK_SIZE - BLOCK_HEADER_LENGTH - BLOCK_FOOTER_LENGTH))
    with (BGZIP_MAX_BLOCK_SIZE - BLOCK_HEADER_LENGTH - BLOCK_FOOTER_LENGTH)
    by reflexivity.
  fold payload. rewrite result_emit_bind.
  assert (Hpos : 0 < len payload).
  { pose proof (len_nonneg payload).
    assert (len payload <> 0) by (rewrite len_nil_iff; exact Hp). lia. }
  assert (Hclen : (len payload <=? 0) = false) by (apply Z.leb_gt; exact Hpos).
  rewrite Hclen, !result_emit_bind.
  unfold ret, result, snd.
  unfold BGZIP_MAX_BLOCK_SIZE, BLOCK_HEADER_LENGTH, BLOCK_FOOTER_LENGTH in *.
  assert (Hd : size_t (len payload + 18 + 8) = len payload + 26).
  { unfold size_t. rewrite Z.mod_small; lia. }
  rewrite Hd.
  assert (H1 : size_t (len payload + 26 - 1) = len payload + 25)
    by (unfold size_t; rewrite Z.mod_small; lia).
  assert (H8 : size_t (len payload + 26 - 8) = len payload + 18)
    by (unfold size_t; rewrite Z.mod_small; lia).
  assert (H4 : size_t (len payload + 26 - 4) = len payload + 22)
    by (unfold size_t; rewrite Z.mod_small; lia).
  rewrite H1, H8, H4.
  rewrite packInt16_bytes by lia. rewrite !packInt32_bytes, u32_idem.
  (* the destination, cut where the fields go *)
  destruct (buffer_split dst (length payload + 26) Hdst) as (blk & r & Edst & Lblk & Er).
  destruct (buffer_split blk 16) as (h16 & blk1 & E1 & L16 & _); [lia |].
  assert (Lblk1 : length blk1 = (length payload + 10)%nat)
    by (rewrite E1, length_app in Lblk; lia).
  destruct (buffer_split blk1 2) as (h2 & blk2 & E2 & L2 & _); [lia |].
  assert (Lblk2 : length blk2 = (length payload + 8)%nat)
    by (rewrite E2, length_app in Lblk1; lia).
  destruct (buffer_split blk2 (length payload)) as (p & blk3 & E3 & Lp & _); [lia |].
  assert (Lblk3 : length blk3 = 8%nat)
    by (rewrite E3, length_app in Lblk2; lia).
  destruct (buffer_split blk3 4) as (f1 & f2 & E4 & Lf1 & _); [lia |].
  assert (Lf2 : length f2 = 4%nat)
    by (rewrite E4, length_app in Lblk3; lia).
  rewrite <- Er. subst dst blk blk1 blk2 blk3.
  set (g16 := firstn 16 g_magic).
  set (bsz := le_bytes 2 (len payload + 25)).
  set (crc := le_bytes 4 (u32 (libdeflate_crc32 lib 0 src))).
  set (isz := le_bytes 4 (u32 (len src))).
  (* the DEFLATE stream *)
  assert (S1 : memcpy ((h16 ++ h2 ++ p ++ f1 ++ f2) ++ r) 18 payload
               = (h16 ++ h2) ++ payload ++ (f1 ++ f2 ++ r)).
  { rewrite <- (memcpy_middle (h16 ++ h2) p (f1 ++ f2 ++ r) payload 18).
    - f_equal. rewrite <- !app_assoc. reflexivity.
    - rewrite length_app. change (Z.to_nat 18) with 18%nat. lia.
    - lia. }
  rewrite S1.
  (* the fixed bytes of the header *)
  assert (S2 : memcpy ((h16 ++ h2) ++ payload ++ f1 ++ f2 ++ r) 0
                 (firstn (Z.to_nat 18) g_magic)
               = g16 ++ [0; 0] ++ payload ++ f1 ++ f2 ++ r).
  { rewrite memcpy_front.
    - reflexivity.
    - rewrite length_app, L16, L2. reflexivity. }
  rewrite S2.
  (* the length of the block *)
  assert (S3 : memcpy (g16 ++ [0; 0] ++ payload ++ f1 ++ f2 ++ r) 16 bsz
               = (g16 ++ bsz ++ payload) ++ f1 ++ (f2 ++ r)).
  { rewrite memcpy_middle.
    - rewrite <- !app_assoc. reflexivity.
    - reflexivity.
    - reflexivity. }
  rewrite S3.
  (* the footer *)
  assert (Lfront : length (g16 ++ bsz ++ payload) = (length payload + 18)%nat).
  { rewrite !length_app. unfold bsz. rewrite length_le_bytes.
    change (length g16) with 16%nat. lia. }
  assert (S4 : memcpy ((g16 ++ bsz ++ payload) ++ f1 ++ (f2 ++ r))
                 (len payload + 18) crc
               = ((g16 ++ bsz ++ payload) ++ crc) ++ f2 ++ r).
  { rewrite memcpy_middle.
    - rewrite <- !app_assoc. reflexivity.
    - rewrite Lfront. unfold len. lia.
    - unfold crc. rewrite length_le_bytes. lia. }
  rewrite S4.
  assert (S5 : memcpy (((g16 ++ bsz ++ payload) ++ crc) ++ f2 ++ r)
                 (len payload + 22) isz
               = ((g16 ++ bsz ++ payload) ++ crc) ++ isz ++ r).
  { apply memcpy_middle.
    - rewrite length_app, Lfront. unfold crc. rewrite length_le_bytes.
      unfold len. lia.
    - unfold isz. rewrite length_le_bytes. lia. }
  rewrite S5.
  unfold bgzf_block.
  unfold BGZIP_MAX_BLOCK_SIZE, BLOCK_HEADER_LENGTH, BLOCK_FOOTER_LENGTH.
  fold payload.
  replace (len payload + 18 + 8 - 1) with (len payload + 25) by lia.
  fold g16 bsz crc isz.
  rewrite <- !app_assoc. reflexivity.
Qed.

(** Nothing to compress: the encoder writes the 28 fixed bytes, which are
    those of [eof_marker]. *)
Lemma bgzip_compress_block_empty (dst : list Z) (dlen : Z) (level : Z) :
  28 <= dlen -> (28 <= length dst)%nat ->
  bgzip_compress_block lib dst dlen [] level
  = ([], Ok (0, eof_marker ++ skipn 28 dst, 28)).
Proof.
  intros Hd Hl. unfold bgzip_compress_block.
  change (len (@nil Z) =? 0) with true. cbv iota.
  assert (H : (dlen <? 28) = false) by (apply Z.ltb_ge; exact Hd).
  rewrite H. unfold ret. do 3 f_equal. f_equal.
  destruct (buffer_split dst 28 Hl) as (blk & r & Edst & Lblk & Er).
  destruct (buffer_split blk 16) as (h & t & E1 & Lh & _); [lia |].
  assert (Lt : length t = 12%nat) by (rewrite E1, length_app in Lblk; lia).
  rewrite <- Er. subst dst blk.
  rewrite <- app_assoc.
  rewrite memcpy_front by (rewrite Lh; reflexivity).
  rewrite (memcpy_middle (firstn 16 g_magic) t r empty_block_tail 16)
    by (auto; rewrite Lt; reflexivity).
  reflexivity.
Qed.

End Encoder.

(** ** The loop over the chunks *)

Section Driver.

Variable lib : libdeflate.
Variable uninit : nat -> Z.

Lemma length_fresh (from n : nat) : length (fresh uninit from n) = n.
Proof. unfold fresh. rewrite length_map, length_seq. reflexivity. Qed.

(** Growing the buffer keeps what was written. *)
Lemma repalloc_keeps (acc junk : list Z) (k : Z) :
  0 <= k ->
  exists junk', repalloc uninit (acc ++ junk) (len acc + k + VARHDRSZ)
                = acc ++ junk' /\ length junk' = Z.to_nat k.
Proof.
  intro Hk. unfold repalloc.
  replace (Z.to_nat (len acc + k + VARHDRSZ - VARHDRSZ))
    with (length acc + Z.to_nat k)%nat by (unfold len; lia).
  rewrite firstn_app.
  rewrite firstn_all2 by lia.
  replace (length acc + Z.to_nat k - length acc)%nat with (Z.to_nat k) by lia.
  rewrite <- app_assoc.
  eexists. split; [reflexivity |].
  rewrite length_app, length_firstn, length_fresh, length_app. lia.
Qed.

(** The chunk of a pass is the first [BGZIP_BLOCK_SIZE] bytes. *)
Lemma isize_chunk (inp : list Z) :
  let isize := if len inp <? BGZIP_BLOCK_SIZE then len inp else BGZIP_BLOCK_SIZE in
  firstn (Z.to_nat isize) inp = firstn (Z.to_nat BGZIP_BLOCK_SIZE) inp
  /\ skipn (Z.to_nat isize) inp = skipn (Z.to_nat BGZIP_BLOCK_SIZE) inp.
Proof.
  cbv zeta. destruct (Z.ltb_spec (len inp) BGZIP_BLOCK_SIZE) as [H | H].
  - unfold len in *. rewrite Nat2Z.id.
    rewrite firstn_all, skipn_all.
    rewrite firstn_all2, skipn_all2 by lia. auto.
  - auto.
Qed.

Lemma length_bgzf_block (z : compressor lib) (chunk : list Z) :
  length (bgzf_block lib z chunk)
  = (length (libdeflate_deflate_compress lib z chunk
       (BGZIP_MAX_BLOCK_SIZE - BLOCK_HEADER_LENGTH - BLOCK_FOOTER_LENGTH)) + 26)%nat.
Proof.
  unfold bgzf_block. rewrite !length_app, !length_le_bytes.
  change (length (firstn 16 g_magic)) with 16%nat. lia.
Qed.

(** The loop does what [emitted_blocks] says, after the bytes already
    written and before the room left over. *)
Lemma compress_loop_emits (budget : nat) (level : Z) :
  output_fits lib ->
  forall (inp acc junk : list Z),
  match emitted_blocks lib budget level inp with
  | Ok bl =>
      exists junk',
        result (compress_loop lib uninit budget level inp (acc ++ junk) (len acc))
        = Ok ((acc ++ concat bl) ++ junk', len acc + len (concat bl))
  | Raised m =>
      result (compress_loop lib uninit budget level inp (acc ++ junk) (len acc))
      = Raised m
  | Unfinished =>
      result (compress_loop lib uninit budget level inp (acc ++ junk) (len acc))
      = Unfinished
  end.
Proof.
  intro Hfits. induction budget as [| budget IH]; intros inp acc junk.
  - destruct inp as [| x inp]; simpl emitted_blocks.
    + exists junk. simpl. rewrite app_nil_r, Z.add_0_r. reflexivity.
    + reflexivity.
  - destruct inp as [| x inp]; [| set (inp0 := x :: inp)].
    + exists junk. simpl. rewrite app_nil_r, Z.add_0_r. reflexivity.
    + assert (Hne : inp0 <> []) by discriminate.
      assert (Hpos : (len inp0 >? 0) = true).
      { apply Z.gtb_lt. unfold len, inp0. simpl length. lia. }
      cbn [emitted_blocks compress_loop]. fold inp0.
      rewrite Hpos.
      destruct (isize_chunk inp0) as [Hf Hs]. rewrite Hf, Hs. clear Hf Hs.
      set (chunk := firstn (Z.to_nat BGZIP_BLOCK_SIZE) inp0).
      assert (Hchunk : chunk <> []) by (unfold chunk, inp0; discriminate).
      rewrite result_emit_bind.
      destruct (repalloc_keeps acc junk BGZIP_MAX_BLOCK_SIZE) as (room & Eroom & Lroom);
        [unfold BGZIP_MAX_BLOCK_SIZE; lia |].
      rewrite Eroom.
      assert (Ea : Z.to_nat (len acc) = length acc) by (unfold len; lia).
      rewrite Ea, skipn_app, skipn_all, Nat.sub_diag, skipn_O, app_nil_l.
      rewrite firstn_app, firstn_all, Nat.sub_diag, firstn_O, app_nil_r.
      rewrite result_bind.
      destruct (libdeflate_alloc_compressor_ex lib level) as [z |] eqn:Hz.
      * set (payload := libdeflate_deflate_compress lib z chunk
               (BGZIP_MAX_BLOCK_SIZE - BLOCK_HEADER_LENGTH - BLOCK_FOOTER_LENGTH)).
        destruct payload as [| p0 payload'] eqn:Hpay.
        -- destruct (bgzip_compress_block_no_output lib room BGZIP_MAX_BLOCK_SIZE
                       chunk level z Hchunk Hz) as (dst' & Hr).
           { exact Hpay. }
           rewrite Hr. cbv beta iota. rewrite result_bind. reflexivity.
        -- assert (Hfit : len payload <= BGZIP_MAX_BLOCK_SIZE - BLOCK_HEADER_LENGTH
                                         - BLOCK_FOOTER_LENGTH).
           { apply Hfits. unfold BGZIP_MAX_BLOCK_SIZE, BLOCK_HEADER_LENGTH,
               BLOCK_FOOTER_LENGTH. lia. }
           rewrite (bgzip_compress_block_writes_block lib room chunk level z Hchunk Hz).
           ++ fold payload. cbv beta iota. rewrite result_bind.
              change (result (if 0 =? 0 then ret tt else _)) with (Ok tt).
              cbv beta iota.
              set (block := bgzf_block lib z chunk).
              assert (Lblock : len block = len payload + 26).
              { unfold len, block. rewrite length_bgzf_block. fold payload. lia. }
              replace (len acc + (len payload + 26)) with (len (acc ++ block))
                by (rewrite len_app; lia).
              rewrite app_assoc.
              specialize (IH (skipn (Z.to_nat BGZIP_BLOCK_SIZE) inp0)
                            (acc ++ block) (skipn (length payload + 26) room)).
              destruct (emitted_blocks lib budget level
                          (skipn (Z.to_nat BGZIP_BLOCK_SIZE) inp0)) as [bl | m |].
              ** destruct IH as (junk' & IH). exists junk'. rewrite IH.
                 cbn [concat]. rewrite !len_app, <- !app_assoc.
                 f_equal. f_equal. lia.
              ** exact IH.
              ** exact IH.
           ++ fold payload. rewrite Hpay. discriminate.
           ++ fold payload. exact Hfit.
           ++ fold payload. rewrite Lroom.
              unfold len, BGZIP_MAX_BLOCK_SIZE, BLOCK_HEADER_LENGTH,
                BLOCK_FOOTER_LENGTH in *. lia.
      * rewrite (bgzip_compress_block_no_compressor lib room BGZIP_MAX_BLOCK_SIZE
                   chunk level Hchunk Hz).
        cbv beta iota. rewrite result_bind. reflexivity.
Qed.

End Driver.

(** ** Chunks and slices *)

Lemma skipn_skipn_add {A : Type} (a b : nat) (l : list A) :
  skipn a (skipn b l) = skipn (b + a) l.
Proof.
  revert l. induction b; intro l; simpl; auto.
  destruct l; simpl; auto. destruct a; reflexivity.
Qed.

Lemma slice_succ (B : list Z) (i : nat) :
  slice B (S i) = slice (skipn (Z.to_nat BGZIP_BLOCK_SIZE) B) i.
Proof.
  unfold slice. rewrite skipn_skipn_add. reflexivity.
Qed.

Lemma ceil_div_small (n : Z) :
  0 < n <= BGZIP_BLOCK_SIZE -> ceil_div n BGZIP_BLOCK_SIZE = 1.
Proof.
  unfold ceil_div, BGZIP_BLOCK_SIZE. intro H.
  symmetry. apply (Z.div_unique _ _ 1 (n - 1)); lia.
Qed.

Lemma ceil_div_step (n : Z) :
  BGZIP_BLOCK_SIZE < n ->
  ceil_div n BGZIP_BLOCK_SIZE = 1 + ceil_div (n - BGZIP_BLOCK_SIZE) BGZIP_BLOCK_SIZE.
Proof.
  unfold ceil_div, BGZIP_BLOCK_SIZE. intro H.
  replace (n + 65280 - 1) with ((n - 65280 + 65280 - 1) + 1 * 65280) by lia.
  rewrite Z.div_add by lia. lia.
Qed.

Lemma ceil_div_nonneg (n : Z) : 0 <= n -> 0 <= ceil_div n BGZIP_BLOCK_SIZE.
Proof.
  unfold ceil_div, BGZIP_BLOCK_SIZE. intro H. apply Z.div_pos; lia.
Qed.

Lemma slices_nil : slices [] = [].
Proof. reflexivity. Qed.

(** The slices of a buffer that is not empty: its first
    [BGZIP_BLOCK_SIZE] bytes, then the slices of the rest. *)
Lemma slices_cons (B : list Z) :
  B <> [] ->
  slices B = firstn (Z.to_nat BGZIP_BLOCK_SIZE) B
             :: slices (skipn (Z.to_nat BGZIP_BLOCK_SIZE) B).
Proof.
  intro HB. unfold slices.
  assert (Hpos : 0 < len B).
  { pose proof (len_nonneg B). assert (len B <> 0) by (rewrite len_nil_iff; auto). lia. }
  assert (Hn : Z.to_nat (ceil_div (len B) BGZIP_BLOCK_SIZE)
               = S (Z.to_nat (ceil_div (len (skipn (Z.to_nat BGZIP_BLOCK_SIZE) B))
                                BGZIP_BLOCK_SIZE))).
  { destruct (Z_le_gt_dec (len B) BGZIP_BLOCK_SIZE) as [Hle | Hgt].
    - rewrite ceil_div_small by lia.
      rewrite skipn_all2 by (unfold len in Hle; lia). reflexivity.
    - rewrite ceil_div_step by lia.
      assert (Hl : len (skipn (Z.to_nat BGZIP_BLOCK_SIZE) B) = len B - BGZIP_BLOCK_SIZE).
      { unfold len in *. rewrite length_skipn.
        unfold BGZIP_BLOCK_SIZE in *. lia. }
      rewrite Hl.
      pose proof (ceil_div_nonneg (len B - BGZIP_BLOCK_SIZE)). lia. }
  rewrite Hn. cbn [seq map]. f_equal.
  rewrite <- seq_shift, map_map.
  apply map_ext. intro i. apply slice_succ.
Qed.

Lemma chunks_nil (budget : nat) : chunks budget [] = [].
Proof. destruct budget; reflexivity. Qed.

Lemma chunks_slices (budget : nat) (inp : list Z) :
  (length inp <= budget)%nat -> chunks budget inp = slices inp.
Proof.
  revert inp. induction budget as [| budget IH]; intros inp Hl.
  - destruct inp; [reflexivity | cbn [length] in Hl; lia].
  - destruct inp as [| x inp]; [reflexivity |].
    rewrite slices_cons by discriminate.
    cbn [chunks]. f_equal. apply IH.
    rewrite length_skipn. cbn [length] in *.
    unfold BGZIP_BLOCK_SIZE. lia.
Qed.

Lemma concat_chunks (budget : nat) (inp : list Z) :
  (length inp <= budget)%nat -> concat (chunks budget inp) = inp.
Proof.
  revert inp. induction budget as [| budget IH]; intros inp Hl.
  - destruct inp; [reflexivity | cbn [length] in Hl; lia].
  - destruct inp as [| x inp]; [reflexivity |].
    cbn [chunks concat]. rewrite IH.
    + apply firstn_skipn.
    + rewrite length_skipn. cbn [length] in *. unfold BGZIP_BLOCK_SIZE. lia.
Qed.

Lemma concat_slices (B : list Z) : concat (slices B) = B.
Proof.
  rewrite <- (chunks_slices (length B) B) by lia.
  apply concat_chunks. lia.
Qed.

Lemma length_slices (B : list Z) :
  length (slices B) = Z.to_nat (ceil_div (len B) BGZIP_BLOCK_SIZE).
Proof. unfold slices. rewrite length_map, length_seq. reflexivity. Qed.

Lemma chunks_bounds (budget : nat) (inp : list Z) :
  Forall (fun c => 0 < len c <= BGZIP_BLOCK_SIZE) (chunks budget inp).
Proof.
  revert inp. induction budget as [| budget IH]; intro inp.
  - destruct inp; constructor.
  - destruct inp as [| x inp]; [constructor |].
    cbn [chunks]. constructor; [| apply IH].
    unfold len. rewrite length_firstn. simpl length.
    unfold BGZIP_BLOCK_SIZE. lia.
Qed.

Lemma slices_bounds (B : list Z) :
  Forall (fun c => 0 < len c <= BGZIP_BLOCK_SIZE) (slices B).
Proof.
  rewrite <- (chunks_slices (length B) B) by lia. apply chunks_bounds.
Qed.

(** ** What the loop emits *)

Section Emitted.

Variable lib : libdeflate.

(** The budget of one pass per byte is enough. *)
Lemma emitted_blocks_finishes (budget : nat) (level : Z) (inp : list Z) :
  (length inp <= budget)%nat ->
  emitted_blocks lib budget level inp <> Unfinished.
Proof.
  revert inp. induction budget as [| budget IH]; intros inp Hl.
  - destruct inp; [discriminate | cbn [length] in Hl; lia].
  - destruct inp as [| x inp]; [discriminate |].
    cbn [emitted_blocks].
    destruct (libdeflate_alloc_compressor_ex lib level) as [z |]; [| discriminate].
    destruct (libdeflate_deflate_compress lib z _ _); [discriminate |].
    specialize (IH (skipn (Z.to_nat BGZIP_BLOCK_SIZE) (x :: inp))).
    destruct (emitted_blocks lib budget level _); try discriminate.
    apply IH. rewrite length_skipn. cbn [length] in *.
    unfold BGZIP_BLOCK_SIZE. lia.
Qed.

(** When all chunks are encoded, the blocks are those of the chunks. *)
Lemma emitted_blocks_ok (budget : nat) (level : Z) (inp : list Z)
    (bl : list (list Z)) :
  emitted_blocks lib budget level inp = Ok bl ->
  inp = [] /\ bl = []
  \/ exists z, libdeflate_alloc_compressor_ex lib level = Some z
       /\ bl = map (bgzf_block lib z) (chunks budget inp)
       /\ Forall (fun c => payload_of lib z c <> []) (chunks budget inp).
Proof.
  revert inp bl. induction budget as [| budget IH]; intros inp bl H.
  - destruct inp; [| discriminate]. left. simpl in H. split; congruence.
  - destruct inp as [| x inp].
    + left. simpl in H. split; congruence.
    + right. cbn [emitted_blocks] in H.
      destruct (libdeflate_alloc_compressor_ex lib level) as [z |] eqn:Hz;
        [| discriminate].
      exists z. split; [reflexivity |].
      destruct (libdeflate_deflate_compress lib z _ _) as [| p0 p] eqn:Hp;
        [discriminate |].
      destruct (emitted_blocks lib budget level _) as [bl' | |] eqn:He;
        try discriminate.
      assert (Ebl : bl = bgzf_block lib z
                           (firstn (Z.to_nat BGZIP_BLOCK_SIZE) (x :: inp)) :: bl')
        by congruence.
      subst bl. clear H.
      cbn [chunks map].
      assert (Hp' : payload_of lib z (firstn (Z.to_nat BGZIP_BLOCK_SIZE) (x :: inp)) <> [])
        by (unfold payload_of; rewrite Hp; discriminate).
      destruct (IH _ _ He) as [[E1 E2] | (z' & Hz' & E & F)].
      * rewrite E1, E2, chunks_nil. cbn [map]. auto.
      * assert (z' = z) by congruence. subst z'.
        rewrite E. auto.
Qed.

(** When there is a compressor and every chunk has output, all chunks are
    encoded. *)
Lemma emitted_blocks_total (budget : nat) (level : Z) (inp : list Z)
    (z : compressor lib) :
  (length inp <= budget)%nat ->
  libdeflate_alloc_compressor_ex lib level = Some z ->
  Forall (fun c => payload_of lib z c <> []) (chunks budget inp) ->
  emitted_blocks lib budget level inp
  = Ok (map (bgzf_block lib z) (chunks budget inp)).
Proof.
  intros Hl Hz. revert inp Hl.
  induction budget as [| budget IH]; intros inp Hl HF.
  - destruct inp; [reflexivity | cbn [length] in Hl; lia].
  - destruct inp as [| x inp]; [reflexivity |].
    cbn [emitted_blocks chunks map] in *. rewrite Hz.
    pose proof (Forall_inv HF) as Hc. pose proof (Forall_inv_tail HF) as Hcs.
    cbv beta in Hc.
    unfold payload_of in Hc.
    destruct (libdeflate_deflate_compress lib z _ _); [congruence |].
    rewrite IH; auto.
    rewrite length_skipn. cbn [length] in *. unfold BGZIP_BLOCK_SIZE. lia.
Qed.

(** The value in the error is the number of bytes not yet consumed when
    the failing chunk is reached. *)
Lemma emitted_blocks_raised (budget : nat) (level : Z) (inp : list Z)
    (m : message) :
  emitted_blocks lib budget level inp = Raised m ->
  exists k : nat,
    m = Error_compressing_the_block_at_position
          (len (skipn (k * Z.to_nat BGZIP_BLOCK_SIZE) inp))
    /\ skipn (k * Z.to_nat BGZIP_BLOCK_SIZE) inp <> [].
Proof.
  revert inp. induction budget as [| budget IH]; intros inp H.
  - destruct inp; discriminate.
  - destruct inp as [| x inp]; [discriminate |].
    cbn [emitted_blocks] in H.
    assert (Hhere : Raised (A := list (list Z))
                      (Error_compressing_the_block_at_position (len (x :: inp)))
                    = Raised m ->
            exists k : nat,
              m = Error_compressing_the_block_at_position
                    (len (skipn (k * Z.to_nat BGZIP_BLOCK_SIZE) (x :: inp)))
              /\ skipn (k * Z.to_nat BGZIP_BLOCK_SIZE) (x :: inp) <> []).
    { intro E. exists 0%nat. simpl. split; [congruence | discriminate]. }
    destruct (libdeflate_alloc_compressor_ex lib level) as [z |]; [| auto].
    destruct (libdeflate_deflate_compress lib z _ _); [auto |].
    destruct (emitted_blocks lib budget level _) as [bl' | m' |] eqn:He;
      try discriminate.
    assert (Em : m' = m) by congruence. subst m'. clear H.
    destruct (IH _ He) as (k & Hm & Hk).
    exists (S k). rewrite skipn_skipn_add in Hm, Hk.
    replace (S k * Z.to_nat BGZIP_BLOCK_SIZE)%nat
      with (Z.to_nat BGZIP_BLOCK_SIZE + k * Z.to_nat BGZIP_BLOCK_SIZE)%nat by lia.
    auto.
Qed.

End Emitted.

(** ** The whole of [pg_bgzip_compress] *)

Section Blocked.

Variable lib : libdeflate.
Variable uninit : nat -> Z.

Lemma level_accepted (level : Z) :
  -1 <= level <= 9 -> (level <? -1) || (level >? 9) = false.
Proof.
  intro H. apply orb_false_iff. split.
  - apply Z.ltb_ge. lia.
  - rewrite Z.gtb_ltb. apply Z.ltb_ge. lia.
Qed.

(** With its arguments in order, the function returns the blocks of
    [emitted_blocks] one after the other, then the marker if asked for, or
    raises what stopped them. *)
Lemma compress_blocked_result (B : list Z) (level : Z) (e : bool) :
  output_fits lib -> -1 <= level <= 9 ->
  result (compress_blocked lib uninit B level e) =
  match emitted_blocks lib (length B) level B with
  | Ok bl => Ok (Bytea (concat bl ++ (if e then eof_marker else [])))
  | Raised m => Raised m
  | Unfinished => Unfinished
  end.
Proof.
  intros Hfits Hlevel.
  unfold compress_blocked, pg_bgzip_compress. cbn [nargs arg0 arg1 arg2].
  change (negb (3 =? 2) && negb (3 =? 3)) with false. cbv iota.
  rewrite (level_accepted level Hlevel). change (3 =? 3) with true. cbv iota.
  rewrite result_emit_bind, result_bind.
  change (palloc uninit VARHDRSZ) with (@nil Z ++ []).
  change 0 with (len (@nil Z)) at 1.
  pose proof (compress_loop_emits lib uninit (length B) level Hfits B [] []) as Hloop.
  destruct (emitted_blocks lib (length B) level B) as [bl | m |].
  - destruct Hloop as (junk & Hloop). rewrite Hloop. cbv beta iota.
    cbn [app]. change (len (@nil Z)) with 0. rewrite Z.add_0_l.
    set (acc := concat bl).
    assert (Ea : Z.to_nat (len acc) = length acc) by (unfold len; lia).
    destruct e.
    + rewrite result_bind, result_elog_bind, result_emit_bind.
      unfold ret at 1. unfold result at 1. cbv beta iota. cbn [snd].
      destruct (repalloc_keeps uninit acc junk 28) as (room & Eroom & Lroom); [lia |].
      rewrite Eroom.
      rewrite <- (app_nil_r room).
      rewrite memcpy_middle by (auto; rewrite Lroom; reflexivity).
      unfold ret, result. cbn [snd]. do 2 f_equal.
      rewrite app_nil_r. apply firstn_all2.
      rewrite length_app. change (length eof_marker) with 28%nat.
      unfold len. lia.
    + rewrite result_bind. unfold ret at 1. unfold result at 1. cbn [snd].
      unfold ret, result. cbn [snd]. do 2 f_equal.
      rewrite Ea, firstn_app, firstn_all, Nat.sub_diag, firstn_O, !app_nil_r.
      reflexivity.
  - rewrite Hloop. reflexivity.
  - rewrite Hloop. reflexivity.
Qed.

(** The result is never [Unfinished]. *)
Lemma compress_loop_finishes (B : list Z) (level : Z) (e : bool) :
  output_fits lib -> -1 <= level <= 9 ->
  result (compress_blocked lib uninit B level e) <> Unfinished.
Proof.
  intros Hfits Hlevel. rewrite compress_blocked_result by assumption.
  pose proof (@emitted_blocks_finishes lib (length B) level B (Nat.le_refl _)).
  destruct (emitted_blocks lib (length B) level B); congruence.
Qed.

(** A returned stream is made of the blocks of the slices. *)
Lemma compress_blocked_returns (B : list Z) (level : Z) (e : bool)
    (out : list Z) :
  output_fits lib -> -1 <= level <= 9 ->
  result (compress_blocked lib uninit B level e) = Ok (Bytea out) ->
  out = concat (stream_blocks lib level B e)
  /\ (B = [] \/ exists z, libdeflate_alloc_compressor_ex lib level = Some z
                  /\ Forall (fun c => payload_of lib z c <> []) (slices B)).
Proof.
  intros Hfits Hlevel H. rewrite compress_blocked_result in H by assumption.
  destruct (emitted_blocks lib (length B) level B) as [bl | m |] eqn:He;
    try discriminate.
  assert (Eout : out = concat bl ++ (if e then eof_marker else [])) by congruence.
  unfold stream_blocks, data_blocks. rewrite concat_app.
  assert (Eeof : concat (if e then [eof_marker] else []) = if e then eof_marker else []).
  { destruct e; [apply app_nil_r | reflexivity]. }
  rewrite Eeof.
  destruct (emitted_blocks_ok lib _ _ _ _ He) as [[E1 E2] | (z & Hz & Ebl & HF)].
  - subst B bl. split; [| left; reflexivity].
    rewrite slices_nil.
    destruct (libdeflate_alloc_compressor_ex lib level); exact Eout.
  - rewrite chunks_slices in Ebl, HF by lia.
    rewrite Hz. subst bl. split; [exact Eout |].
    right. exists z. auto.
Qed.

(** With a compressor and output for every chunk, the stream is
    returned. *)
Lemma compress_blocked_total (B : list Z) (level : Z) (e : bool)
    (z : compressor lib) :
  output_fits lib -> chunk_fits lib -> -1 <= level <= 9 ->
  libdeflate_alloc_compressor_ex lib level = Some z ->
  result (compress_blocked lib uninit B level e)
  = Ok (Bytea (concat (stream_blocks lib level B e))).
Proof.
  intros Hfits Hchunk Hlevel Hz.
  rewrite compress_blocked_result by assumption.
  rewrite (@emitted_blocks_total lib (length B) level B z (Nat.le_refl _) Hz).
  - unfold stream_blocks, data_blocks. rewrite Hz, concat_app.
    rewrite chunks_slices by lia.
    destruct e; [cbn [concat]; rewrite app_nil_r |]; reflexivity.
  - eapply Forall_impl; [| apply chunks_bounds].
    intros c Hc. apply Hchunk. exact Hc.
Qed.

End Blocked.

(** ** Reading the blocks back *)

Lemma skipn_app_exact {A : Type} (a b : list A) (n : nat) :
  length a = n -> skipn n (a ++ b) = b.
Proof.
  intros <-. rewrite skipn_app, skipn_all, Nat.sub_diag. reflexivity.
Qed.

Lemma firstn_app_exact {A : Type} (a b : list A) (n : nat) :
  length a = n -> firstn n (a ++ b) = a.
Proof.
  intros <-. rewrite firstn_app, firstn_all, Nat.sub_diag, firstn_O.
  apply app_nil_r.
Qed.

Lemma bytes_eqb_refl (a : list Z) : bytes_eqb a a = true.
Proof.
  induction a as [| x a IH]; [reflexivity |].
  cbn [bytes_eqb]. rewrite Z.eqb_refl, IH. reflexivity.
Qed.

Lemma block_BSIZE_app (b r : list Z) :
  (18 <= length b)%nat -> block_BSIZE (b ++ r) = block_BSIZE b.
Proof.
  intro H. unfold block_BSIZE.
  rewrite skipn_app, firstn_app, length_skipn.
  replace (2 - (length b - 16))%nat with 0%nat by lia.
  replace (16 - length b)%nat with 0%nat by lia.
  rewrite skipn_O, firstn_O, app_nil_r. reflexivity.
Qed.

Lemma bgzf_split_nil (budget : nat) : bgzf_split budget [] = Some [].
Proof. destruct budget; reflexivity. Qed.

Lemma bgzf_split_step (budget : nat) (s : list Z) :
  s <> [] ->
  bgzf_split (S budget) s =
  if (block_BSIZE s + 1 <? 26) || (len s <? block_BSIZE s + 1) then None
  else
    match bgzf_split budget (skipn (Z.to_nat (block_BSIZE s + 1)) s) with
    | Some bs => Some (firstn (Z.to_nat (block_BSIZE s + 1)) s :: bs)
    | None => None
    end.
Proof. destruct s; [congruence | reflexivity]. Qed.

(** A stream of blocks that carry their own length is cut back into
    those blocks. *)
Lemma bgzf_split_concat (bl : list (list Z)) :
  Forall (fun b => block_BSIZE b = len b - 1 /\ 26 <= len b) bl ->
  forall budget, (length bl <= budget)%nat ->
  bgzf_split budget (concat bl) = Some bl.
Proof.
  induction 1 as [| b bl [Hsz Hlen] HF IH]; intros budget Hb.
  - apply bgzf_split_nil.
  - destruct budget as [| budget]; [cbn [length] in Hb; lia |].
    cbn [concat].
    assert (Hne : b ++ concat bl <> []).
    { destruct b; [unfold len in Hlen; cbn [length] in Hlen; lia | discriminate]. }
    rewrite bgzf_split_step by exact Hne.
    rewrite block_BSIZE_app by (unfold len in Hlen; lia).
    rewrite Hsz. replace (len b - 1 + 1) with (len b) by lia.
    assert (H1 : (len b <? 26) = false) by (apply Z.ltb_ge; lia).
    assert (H2 : (len (b ++ concat bl) <? len b) = false).
    { apply Z.ltb_ge. rewrite len_app. pose proof (len_nonneg (concat bl)). lia. }
    rewrite H1, H2. cbn [orb].
    assert (Hn : Z.to_nat (len b) = length b) by (unfold len; lia).
    rewrite Hn, skipn_app_exact, firstn_app_exact by reflexivity.
    rewrite IH by (cbn [length] in Hb; lia). reflexivity.
Qed.

Lemma length_concat_blocks (bl : list (list Z)) :
  Forall (fun b => 26 <= len b) bl -> (length bl <= length (concat bl))%nat.
Proof.
  induction 1 as [| b bl Hb HF IH]; [reflexivity |].
  cbn [concat length]. rewrite length_app. unfold len in Hb. lia.
Qed.

Section Fields.

Variable lib : libdeflate.

Lemma bgzf_block_parts (z : compressor lib) (c : list Z) :
  bgzf_block lib z c
  = firstn 16 g_magic
    ++ le_bytes 2 (len (payload_of lib z c) + 25)
    ++ payload_of lib z c
    ++ le_bytes 4 (u32 (libdeflate_crc32 lib 0 c))
    ++ le_bytes 4 (u32 (len c)).
Proof.
  unfold bgzf_block, payload_of. cbv zeta.
  set (P := libdeflate_deflate_compress lib z c _).
  replace (len P + BLOCK_HEADER_LENGTH + BLOCK_FOOTER_LENGTH - 1)
    with (len P + 25) by (unfold BLOCK_HEADER_LENGTH, BLOCK_FOOTER_LENGTH; lia).
  reflexivity.
Qed.

Lemma len_bgzf_block (z : compressor lib) (c : list Z) :
  len (bgzf_block lib z c) = 18 + len (payload_of lib z c) + 8.
Proof. unfold len. rewrite length_bgzf_block. unfold payload_of. lia. Qed.

Lemma block_BSIZE_bgzf_block (z : compressor lib) (c : list Z) :
  len (payload_of lib z c)
    <= BGZIP_MAX_BLOCK_SIZE - BLOCK_HEADER_LENGTH - BLOCK_FOOTER_LENGTH ->
  block_BSIZE (bgzf_block lib z c) = len (bgzf_block lib z c) - 1.
Proof.
  intro H. rewrite len_bgzf_block, bgzf_block_parts. unfold block_BSIZE.
  rewrite skipn_app_exact by reflexivity.
  rewrite firstn_app_exact by apply length_le_bytes.
  rewrite le_decode_le_bytes.
  - lia.
  - pose proof (len_nonneg (payload_of lib z c)).
    unfold BGZIP_MAX_BLOCK_SIZE, BLOCK_HEADER_LENGTH, BLOCK_FOOTER_LENGTH in H.
    change (256 ^ Z.of_nat 2) with 65536. lia.
Qed.

Lemma block_payload_bgzf_block (z : compressor lib) (c : list Z) :
  block_payload (bgzf_block lib z c) = payload_of lib z c.
Proof.
  unfold block_payload. rewrite length_bgzf_block. fold (payload_of lib z c).
  rewrite bgzf_block_parts.
  replace (length (payload_of lib z c) + 26 - 26)%nat
    with (length (payload_of lib z c)) by lia.
  rewrite (app_assoc (firstn 16 g_magic)).
  rewrite skipn_app_exact
    by (rewrite length_app, length_le_bytes; reflexivity).
  apply firstn_app_exact. reflexivity.
Qed.

Lemma block_CRC32_bgzf_block (z : compressor lib) (c : list Z) :
  block_CRC32 (bgzf_block lib z c) = u32 (libdeflate_crc32 lib 0 c).
Proof.
  unfold block_CRC32. rewrite length_bgzf_block. fold (payload_of lib z c).
  rewrite bgzf_block_parts.
  rewrite (app_assoc (le_bytes 2 _)), (app_assoc (firstn 16 g_magic)).
  rewrite skipn_app_exact.
  - rewrite firstn_app_exact by apply length_le_bytes.
    apply le_decode_le_bytes, u32_range.
  - rewrite !length_app, length_le_bytes.
    change (length (firstn 16 g_magic)) with 16%nat. lia.
Qed.

Lemma block_ISIZE_bgzf_block (z : compressor lib) (c : list Z) :
  block_ISIZE (bgzf_block lib z c) = u32 (len c).
Proof.
  unfold block_ISIZE. rewrite length_bgzf_block. fold (payload_of lib z c).
  rewrite bgzf_block_parts.
  rewrite (app_assoc (payload_of lib z c)), (app_assoc (le_bytes 2 _)),
    (app_assoc (firstn 16 g_magic)).
  rewrite skipn_app_exact.
  - rewrite firstn_all2 by (rewrite length_le_bytes; lia).
    apply le_decode_le_bytes, u32_range.
  - rewrite !length_app, !length_le_bytes.
    change (length (firstn 16 g_magic)) with 16%nat. lia.
Qed.

(** A reader gets the chunk back from its block. *)
Lemma bgzf_block_decode_bgzf_block (inflate : list Z -> option (list Z))
    (z : compressor lib) (c : list Z) :
  inflate (payload_of lib z c) = Some c ->
  bgzf_block_decode lib inflate (bgzf_block lib z c) = Some c.
Proof.
  intro Hi. unfold bgzf_block_decode.
  rewrite block_payload_bgzf_block, Hi.
  rewrite block_CRC32_bgzf_block, block_ISIZE_bgzf_block, !Z.eqb_refl.
  rewrite bgzf_block_parts, firstn_app_exact by reflexivity.
  rewrite bytes_eqb_refl. reflexivity.
Qed.

Lemma decode_all_blocks (inflate : list Z -> option (list Z))
    (z : compressor lib) (cs : list (list Z)) :
  Forall (fun c => inflate (payload_of lib z c) = Some c) cs ->
  decode_all lib inflate (map (bgzf_block lib z) cs) = Some cs.
Proof.
  induction 1 as [| c cs Hc HF IH]; [reflexivity |].
  cbn [map decode_all].
  rewrite bgzf_block_decode_bgzf_block, IH by exact Hc. reflexivity.
Qed.

End Fields.

(** ** The storing libdeflate is as the code expects *)

Module StoredDeflateFacts.

Import StoredDeflate.

Lemma le2_value (v : Z) :
  0 <= v < 65536 -> v mod 256 + 256 * (v / 256 mod 256) = v.
Proof.
  intro H. rewrite (Z.mod_small (v / 256)).
  - pose proof (Z.div_mod v 256). lia.
  - split; [apply Z.div_pos; lia | apply Z.div_lt_upper_bound; lia].
Qed.

Lemma stored_block_eq (final : bool) (data : list Z) :
  stored_block final data
  = (if final then 1 else 0)
    :: len data mod 256 :: len data / 256 mod 256
    :: (65535 - len data) mod 256 :: (65535 - len data) / 256 mod 256
    :: data.
Proof. reflexivity. Qed.

Lemma length_stored_blocks (budget : nat) (data : list Z) :
  (length data + 5 <= length (stored_blocks budget data))%nat.
Proof.
  revert data. induction budget as [| b IH]; intro data.
  - cbn [stored_blocks]. rewrite stored_block_eq. cbn [length]. lia.
  - cbn [stored_blocks]. destruct (len data <=? 65535).
    + rewrite stored_block_eq. cbn [length]. lia.
    + rewrite length_app, stored_block_eq. cbn [length].
      specialize (IH (skipn (Z.to_nat 65535) data)).
      rewrite length_skipn in IH. rewrite length_firstn. lia.
Qed.

Lemma stored_blocks_head (budget : nat) (data : list Z) :
  exists h t, stored_blocks budget data = h :: t /\ (h = 0 \/ h = 1).
Proof.
  destruct budget as [| b]; cbn [stored_blocks].
  - rewrite stored_block_eq. eauto.
  - destruct (len data <=? 65535); rewrite stored_block_eq.
    + eauto.
    + cbn [app]. eauto.
Qed.

Lemma inflate_blocks_final (budget : nat) (data : list Z) :
  len data <= 65535 ->
  inflate_blocks (S budget) (stored_block true data) = Some data.
Proof.
  intro H. pose proof (len_nonneg data) as H0.
  rewrite stored_block_eq. cbn [inflate_blocks].
  rewrite !le2_value by lia.
  rewrite !Z.eqb_refl, Z.leb_refl. reflexivity.
Qed.

Lemma inflate_blocks_stored (budget : nat) :
  forall (data : list Z) (budget' : nat),
  (length data <= budget)%nat -> (budget < budget')%nat ->
  inflate_blocks budget' (stored_blocks budget data) = Some data.
Proof.
  induction budget as [| b IH]; intros data budget' Hd Hb.
  - destruct budget' as [| b']; [lia |].
    cbn [stored_blocks]. apply inflate_blocks_final.
    unfold len. lia.
  - destruct budget' as [| b']; [lia |].
    cbn [stored_blocks].
    destruct (Z.leb_spec (len data) 65535) as [Hle | Hgt].
    + apply inflate_blocks_final. exact Hle.
    + set (F := firstn (Z.to_nat 65535) data).
      set (R := stored_blocks b (skipn (Z.to_nat 65535) data)).
      assert (LF : len F = 65535).
      { unfold len, F. rewrite length_firstn. unfold len in Hgt. lia. }
      rewrite stored_block_eq, LF. cbn [app inflate_blocks].
      change (65535 mod 256 + 256 * (65535 / 256 mod 256)) with 65535.
      change ((65535 - 65535) mod 256 + 256 * ((65535 - 65535) / 256 mod 256))
        with 0.
      change (0 =? 65535 - 65535) with true.
      assert (H1 : (65535 <=? len (F ++ R)) = true).
      { apply Z.leb_le. rewrite len_app. pose proof (len_nonneg R). lia. }
      rewrite H1. cbn [andb].
      change (0 =? 1) with false. change (0 =? 0) with true. cbv iota.
      assert (LF' : length F = Z.to_nat 65535) by (unfold len in LF; lia).
      rewrite skipn_app_exact, firstn_app_exact by exact LF'.
      unfold R. rewrite IH.
      * unfold F. rewrite firstn_skipn. reflexivity.
      * rewrite length_skipn. lia.
      * lia.
Qed.

Lemma inflate_deflate (src : list Z) : inflate (deflate src) = Some src.
Proof.
  unfold inflate, deflate.
  destruct (stored_blocks_head (length src) src) as (h & t & E & Hh).
  assert (Hne : bytes_eqb (stored_blocks (length src) src) [3; 0] = false).
  { rewrite E. cbn [bytes_eqb]. destruct Hh; subst h; reflexivity. }
  rewrite Hne. apply inflate_blocks_stored.
  - lia.
  - pose proof (length_stored_blocks (length src) src). lia.
Qed.

Lemma api_output_fits : output_fits api.
Proof.
  intros z src avail Ha. cbn [api libdeflate_deflate_compress].
  unfold deflate_compress.
  destruct (Z.leb_spec (len (deflate src)) avail); [assumption | exact Ha].
Qed.

Lemma api_inflates : inflates api inflate.
Proof.
  intros z src avail. cbn [api libdeflate_deflate_compress].
  unfold deflate_compress.
  destruct (len (deflate src) <=? avail); [| congruence].
  intros _. apply inflate_deflate.
Qed.

Lemma len_deflate_small (src : list Z) :
  len src <= 65535 -> len (deflate src) = len src + 5.
Proof.
  intro H. unfold deflate.
  assert (E : stored_blocks (length src) src = stored_block true src).
  { destruct (length src); cbn [stored_blocks]; [reflexivity |].
    destruct (Z.leb_spec (len src) 65535); [reflexivity | lia]. }
  rewrite E, stored_block_eq. unfold len. cbn [length]. lia.
Qed.

Lemma api_chunk_fits : chunk_fits api.
Proof.
  intros z src H. cbn [api libdeflate_deflate_compress].
  unfold deflate_compress, BGZIP_BLOCK_SIZE, BGZIP_MAX_BLOCK_SIZE,
    BLOCK_HEADER_LENGTH, BLOCK_FOOTER_LENGTH in *.
  pose proof (len_deflate_small src) as Hl.
  destruct (Z.leb_spec (len (deflate src)) (65536 - 18 - 8)) as [Hle | Hgt]; [| lia].
  intro E. rewrite E in Hl. change (len (@nil Z)) with 0 in Hl. lia.
Qed.

End StoredDeflateFacts.

(** ** Streams of data blocks, read back *)

Section Streams.

Variable lib : libdeflate.
Variable uninit : nat -> Z.

Lemma data_blocks_well_formed (z : compressor lib) (cs : list (list Z)) :
  output_fits lib ->
  Forall (fun b => block_BSIZE b = len b - 1 /\ 26 <= len b)
    (map (bgzf_block lib z) cs).
Proof.
  intro Hfits. apply Forall_map, Forall_forall. intros c _.
  assert (Hp : len (payload_of lib z c)
               <= BGZIP_MAX_BLOCK_SIZE - BLOCK_HEADER_LENGTH - BLOCK_FOOTER_LENGTH).
  { apply Hfits. unfold BGZIP_MAX_BLOCK_SIZE, BLOCK_HEADER_LENGTH,
      BLOCK_FOOTER_LENGTH. lia. }
  split.
  - apply block_BSIZE_bgzf_block. exact Hp.
  - rewrite len_bgzf_block. pose proof (len_nonneg (payload_of lib z c)). lia.
Qed.

(** The reader finds the slices in the stream of their blocks. *)
Lemma bgzf_chunks_data_blocks (inflate : list Z -> option (list Z))
    (z : compressor lib) (B : list Z) :
  output_fits lib -> inflates lib inflate ->
  Forall (fun c => payload_of lib z c <> []) (slices B) ->
  bgzf_chunks lib inflate (concat (map (bgzf_block lib z) (slices B)))
  = Some (slices B).
Proof.
  intros Hfits Hinf Hne. unfold bgzf_chunks.
  pose proof (data_blocks_well_formed z (slices B) Hfits) as Hwf.
  rewrite (bgzf_split_concat _ Hwf).
  - apply decode_all_blocks.
    eapply Forall_impl; [| exact Hne].
    intros c Hc. apply Hinf. exact Hc.
  - etransitivity; [| apply length_concat_blocks].
    + reflexivity.
    + eapply Forall_impl; [| exact Hwf]. intros b [_ H]. exact H.
Qed.

(** The loop raises nothing but the error of a chunk. *)
Lemma compress_loop_raises (budget : nat) (level : Z) :
  forall (inp compressed : list Z) (compressed_size : Z) (m : message),
  result (compress_loop lib uninit budget level inp compressed compressed_size)
  = Raised m ->
  exists p, m = Error_compressing_the_block_at_position p.
Proof.
  induction budget as [| budget IH]; intros inp compressed csize m H.
  - cbn [compress_loop] in H. destruct (len inp >? 0); discriminate.
  - cbn [compress_loop] in H. destruct (len inp >? 0); [| discriminate].
    rewrite result_emit_bind, result_bind in H.
    match type of H with
    | context [result (bgzip_compress_block ?l ?d ?n ?s ?v)] =>
        destruct (bgzip_compress_block_never_raises l d n s v) as ([[rc dst] dlen] & Hr)
    end.
    rewrite Hr in H. cbv beta iota in H. rewrite result_bind in H.
    destruct (rc =? 0).
    + change (result (ret tt)) with (Ok tt) in H. cbv beta iota in H.
      eapply IH. exact H.
    + unfold elog_error, result in H. cbn [snd] in H.
      exists (len inp). congruence.
Qed.

Lemma pg_bgzip_compress_raises (fcinfo : FunctionCallInfo) (B : list Z)
    (level : Z) (m : message) :
  (nargs fcinfo = 2 \/ nargs fcinfo = 3) ->
  arg0 fcinfo = Some B -> arg1 fcinfo = Some level -> -1 <= level <= 9 ->
  result (pg_bgzip_compress lib uninit fcinfo) = Raised m ->
  exists p, m = Error_compressing_the_block_at_position p.
Proof.
  intros Hn H0 H1 Hl H. unfold pg_bgzip_compress in H.
  assert (Hn' : negb (nargs fcinfo =? 2) && negb (nargs fcinfo =? 3) = false).
  { destruct Hn as [-> | ->]; reflexivity. }
  rewrite Hn', H0, H1, (level_accepted level Hl) in H.
  rewrite result_emit_bind, result_bind in H.
  destruct (result (compress_loop lib uninit (length B) level B
                      (palloc uninit VARHDRSZ) 0)) as [[c n] | m' |] eqn:Hloop.
  - cbv beta iota in H. rewrite result_bind in H.
    destruct (if nargs fcinfo =? 3 then _ else false).
    + rewrite result_elog_bind, result_emit_bind in H. discriminate.
    + discriminate.
  - apply compress_loop_raises in Hloop. destruct Hloop as (p & ->).
    exists p. congruence.
  - discriminate.
Qed.

(** Nothing to compress, no marker asked for: nothing but the allocation
    of the empty result happens. *)
Lemma compress_blocked_empty (level : Z) :
  -1 <= level <= 9 ->
  compress_blocked lib uninit [] level false
  = ([Epalloc VARHDRSZ], Ok (Bytea [])).
Proof.
  intro Hl. unfold compress_blocked, pg_bgzip_compress.
  cbn [nargs arg0 arg1 arg2].
  change (negb (3 =? 2) && negb (3 =? 3)) with false. cbv iota.
  rewrite (level_accepted level Hl). reflexivity.
Qed.

Lemma compress_blocked_level (B : list Z) (level : Z) (e : bool) (d : Datum) :
  result (compress_blocked lib uninit B level e) = Ok d -> -1 <= level <= 9.
Proof.
  unfold compress_blocked, pg_bgzip_compress. cbn [nargs arg0 arg1 arg2].
  change (negb (3 =? 2) && negb (3 =? 3)) with false. cbv iota.
  destruct (Z.ltb_spec level (-1)); [discriminate |].
  destruct (Z.gtb_spec level 9); [discriminate |].
  intros _. lia.
Qed.

(** *** The whole-buffer path *)

Lemma compress_gzip_returns (B : list Z) (level : Z) (z : compressor lib) :
  -1 <= level <= 9 ->
  libdeflate_alloc_compressor_ex lib level = Some z ->
  let written :=
    libdeflate_gzip_compress lib z B
      (len B + BLOCK_HEADER_LENGTH + BLOCK_FOOTER_LENGTH) in
  written <> [] ->
  len written <= len B + BLOCK_HEADER_LENGTH + BLOCK_FOOTER_LENGTH ->
  result (compress_gzip lib uninit B level) = Ok (Bytea written).
Proof.
  intros Hl Hz written Hne Hfit.
  unfold compress_gzip, pg_bgzip_gzip_compress. cbn [arg0 arg1].
  rewrite (level_accepted level Hl), !result_emit_bind, Hz, result_emit_bind.
  fold written.
  assert (Hpos : (len written <=? 0) = false).
  { apply Z.leb_gt. pose proof (len_nonneg written).
    assert (len written <> 0) by (rewrite len_nil_iff; exact Hne). lia. }
  rewrite Hpos, result_emit_bind. unfold ret, result. cbn [snd].
  do 2 f_equal.
  assert (Lroom : (length written <= length (palloc uninit
            (len B + BLOCK_HEADER_LENGTH + BLOCK_FOOTER_LENGTH + VARHDRSZ)))%nat).
  { unfold palloc. rewrite length_fresh. unfold len, VARHDRSZ in *. lia. }
  destruct (buffer_split _ _ Lroom) as (a & r & E & La & _).
  rewrite E, memcpy_front by (symmetry; exact La).
  apply firstn_app_exact. unfold len. lia.
Qed.

End Streams.

(** * The block stream *)

(** Round trip of the block path.  For a libdeflate that keeps to the
    room it is given and writes streams a reader inflates back, every
    buffer [B] and every level: whatever [compress_blocked B level false]
    returns is the concatenation of the data blocks, and reading the
    blocks one after the other (cut at their BSIZE, payload inflated,
    CRC-32 and ISIZE checked) gives exactly [B].  And it does return, at a
    level between -1 and 9, when libdeflate allocates a compressor at that
    level and has output for every chunk of at most [BGZIP_BLOCK_SIZE]
    bytes. *)
Lemma compress_blocked_roundtrip (lib : libdeflate) (uninit : nat -> Z)
    (inflate : list Z -> option (list Z)) (B : list Z) (level : Z) :
  output_fits lib -> inflates lib inflate ->
  (forall out,
     result (compress_blocked lib uninit B level false) = Ok (Bytea out) ->
     out = concat (data_blocks lib level B)
     /\ bgzf_decode lib inflate out = Some B)
  /\ (forall z : compressor lib,
        chunk_fits lib -> -1 <= level <= 9 ->
        libdeflate_alloc_compressor_ex lib level = Some z ->
        exists out,
          result (compress_blocked lib uninit B level false) = Ok (Bytea out)).
Proof.
  intros Hfits Hinf. split.
  - intros out H.
    pose proof (compress_blocked_level lib uninit B level false _ H) as Hlevel.
    destruct (compress_blocked_returns lib uninit B level false out Hfits Hlevel H)
      as [Eout Hz].
    unfold stream_blocks in Eout. rewrite app_nil_r in Eout.
    split; [exact Eout |].
    rewrite Eout. unfold bgzf_decode, data_blocks.
    destruct Hz as [-> | (z & Hz & Hne)].
    + rewrite slices_nil.
      destruct (libdeflate_alloc_compressor_ex lib level); reflexivity.
    + rewrite Hz, bgzf_chunks_data_blocks by assumption.
      cbn [option_map]. rewrite concat_slices. reflexivity.
  - intros z Hchunk Hlevel Hz. eexists.
    apply (compress_blocked_total lib uninit B level false z); assumption.
Qed.

Lemma compress_blocked_roundtrip_witness :
  let out := [31; 139; 8; 4; 0; 0; 0; 0; 0; 255; 6; 0; 66; 67; 2; 0; 33; 0;
              1; 3; 0; 252; 255; 65; 66; 67; 72; 3; 131; 163; 3; 0; 0; 0] in
  (out = concat (data_blocks StoredDeflate.api 6 [65; 66; 67])
   /\ bgzf_decode StoredDeflate.api StoredDeflate.inflate out = Some [65; 66; 67])
  /\ exists out',
       result (compress_blocked StoredDeflate.api (fun _ => 0) [65; 66; 67] 6 false)
       = Ok (Bytea out').
Proof.
  destruct (compress_blocked_roundtrip StoredDeflate.api (fun _ => 0)
              StoredDeflate.inflate [65; 66; 67] 6
              StoredDeflateFacts.api_output_fits StoredDeflateFacts.api_inflates)
    as [Hback Hreturns].
  split.
  - apply Hback. vm_compute. reflexivity.
  - apply (Hreturns 6).
    + exact StoredDeflateFacts.api_chunk_fits.
    + lia.
    + reflexivity.
Defined.

(** Without a compressor the loop stops at its first chunk. *)
Lemma emitted_blocks_no_compressor (lib : libdeflate) (budget : nat)
    (level x : Z) (inp : list Z) :
  libdeflate_alloc_compressor_ex lib level = None ->
  emitted_blocks lib (S budget) level (x :: inp)
  = Raised (Error_compressing_the_block_at_position (len (x :: inp))).
Proof. intro Hz. cbn [emitted_blocks]. rewrite Hz. reflexivity. Qed.

(** C1.  The round trip at level -1.  The level check of
    [pg_bgzip_compress] lets -1 through ("default best effort (approx 6)")
    and hands it to libdeflate as it is.  libdeflate, which documents the
    levels 0 to 12, has no compressor for it: with the storing libdeflate
    every buffer that is not empty, with or without the marker, raises the
    error of its first chunk, and no block is returned that could be read
    back.  At level 6 the same buffers are returned as blocks that read
    back to the buffer. *)
Theorem roundtrip_fails_at_level_minus_one :
  libdeflate_alloc_compressor_ex StoredDeflate.api (-1) = None
  /\ compress_blocked StoredDeflate.api (fun _ => 0) [65; 66; 67] (-1) false
     = ([Epalloc 4; Erepalloc 65540; Ealloc_compressor (-1);
         Elog ERROR (Error_compressing_the_block_at_position 3)],
        Raised (Error_compressing_the_block_at_position 3))
  /\ (forall (uninit : nat -> Z) (x : Z) (B : list Z) (append_eof : bool),
        result (compress_blocked StoredDeflate.api uninit (x :: B) (-1) append_eof)
        = Raised (Error_compressing_the_block_at_position (len (x :: B))))
  /\ (forall (uninit : nat -> Z) (B : list Z),
        exists out,
          result (compress_blocked StoredDeflate.api uninit B 6 false)
          = Ok (Bytea out)
          /\ bgzf_decode StoredDeflate.api StoredDeflate.inflate out = Some B).
Proof.
  split; [reflexivity |]. split; [vm_compute; reflexivity |]. split.
  - intros uninit x B e.
    rewrite compress_blocked_result
      by (exact StoredDeflateFacts.api_output_fits || lia).
    cbn [length]. rewrite emitted_blocks_no_compressor by reflexivity.
    reflexivity.
  - intros uninit B.
    destruct (compress_blocked_roundtrip StoredDeflate.api uninit
                StoredDeflate.inflate B 6
                StoredDeflateFacts.api_output_fits StoredDeflateFacts.api_inflates)
      as [Hback Hreturns].
    destruct (Hreturns 6 StoredDeflateFacts.api_chunk_fits) as (out & Hout);
      [lia | reflexivity |].
    exists out. split; [exact Hout |]. apply (Hback out Hout).
Qed.



(** C3.  BSIZE and the size of a block.  For a libdeflate that keeps to
    the room it is given: a stream returned by [compress_blocked] is the
    concatenation of its blocks (the data blocks, then the marker if asked
    for), and in every one of them the two bytes at offset 16, read least
    significant first, are the length of the block less one, the length is
    18 + the length of the payload + 8, and it is at most 0x10000. *)
Theorem block_size_field (lib : libdeflate) (uninit : nat -> Z) (B : list Z)
    (level : Z) (append_eof : bool) (out : list Z) :
  output_fits lib ->
  result (compress_blocked lib uninit B level append_eof) = Ok (Bytea out) ->
  out = concat (stream_blocks lib level B append_eof)
  /\ Forall block_well_formed (stream_blocks lib level B append_eof).
Proof.
  intros Hfits H.
  pose proof (compress_blocked_level lib uninit B level append_eof _ H) as Hlevel.
  destruct (compress_blocked_returns lib uninit B level append_eof out Hfits Hlevel H)
    as [Eout _].
  split; [exact Eout |].
  unfold stream_blocks. apply Forall_app. split.
  - unfold data_blocks.
    destruct (libdeflate_alloc_compressor_ex lib level) as [z |]; [| constructor].
    apply Forall_map, Forall_forall. intros c _.
    assert (Hp : len (payload_of lib z c)
                 <= BGZIP_MAX_BLOCK_SIZE - BLOCK_HEADER_LENGTH - BLOCK_FOOTER_LENGTH).
    { apply Hfits. unfold BGZIP_MAX_BLOCK_SIZE, BLOCK_HEADER_LENGTH,
        BLOCK_FOOTER_LENGTH. lia. }
    unfold block_well_formed.
    rewrite block_BSIZE_bgzf_block, block_payload_bgzf_block, len_bgzf_block
      by exact Hp.
    unfold BGZIP_MAX_BLOCK_SIZE, BLOCK_HEADER_LENGTH, BLOCK_FOOTER_LENGTH in *.
    repeat split; lia.
  - destruct append_eof; constructor; [| constructor].
    unfold block_well_formed. vm_compute. repeat split; discriminate.
Qed.

Lemma block_size_field_witness :
  [31; 139; 8; 4; 0; 0; 0; 0; 0; 255; 6; 0; 66; 67; 2; 0; 33; 0;
   1; 3; 0; 252; 255; 65; 66; 67; 72; 3; 131; 163; 3; 0; 0; 0;
   31; 139; 8; 4; 0; 0; 0; 0; 0; 255; 6; 0; 66; 67; 2; 0; 27; 0;
   3; 0; 0; 0; 0; 0; 0; 0; 0; 0]
  = concat (stream_blocks StoredDeflate.api 6 [65; 66; 67] true)
  /\ Forall block_well_formed (stream_blocks StoredDeflate.api 6 [65; 66; 67] true).
Proof.
  apply (block_size_field StoredDeflate.api (fun _ => 0) [65; 66; 67] 6 true).
  - exact StoredDeflateFacts.api_output_fits.
  - vm_compute. reflexivity.
Defined.

(** C4.  The footer of a data block.  For a libdeflate that keeps to the
    room it is given: in a stream returned by [compress_blocked] there is
    one data block for each slice of the buffer, and in block [i] the four
    bytes at its length less 8, read least significant first, are the
    CRC-32 libdeflate computes of slice [i], and the four bytes at its
    length less 4 are the length of slice [i] modulo 2^32. *)
Theorem block_footer (lib : libdeflate) (uninit : nat -> Z) (B : list Z)
    (level : Z) (append_eof : bool) (out : list Z) :
  output_fits lib ->
  result (compress_blocked lib uninit B level append_eof) = Ok (Bytea out) ->
  out = concat (stream_blocks lib level B append_eof)
  /\ length (data_blocks lib level B) = length (slices B)
  /\ forall i, (i < length (slices B))%nat ->
       let b := nth i (data_blocks lib level B) [] in
       block_CRC32 b = u32 (libdeflate_crc32 lib 0 (slice B i))
       /\ block_ISIZE b = len (slice B i) mod 2 ^ 32.
Proof.
  intros Hfits H.
  pose proof (compress_blocked_level lib uninit B level append_eof _ H) as Hlevel.
  destruct (compress_blocked_returns lib uninit B level append_eof out Hfits Hlevel H)
    as [Eout Hz].
  split; [exact Eout |].
  destruct Hz as [-> | (z & Hz & _)].
  - rewrite slices_nil. split.
    + unfold data_blocks. rewrite slices_nil.
      destruct (libdeflate_alloc_compressor_ex lib level); reflexivity.
    + intros i Hi. cbn [length] in Hi. lia.
  - unfold data_blocks. rewrite Hz. split; [apply length_map |].
    intros i Hi. cbv zeta.
    rewrite length_slices in Hi.
    assert (Hnth : nth i (map (bgzf_block lib z) (slices B)) []
                   = bgzf_block lib z (slice B i)).
    { unfold slices. rewrite map_map.
      rewrite (nth_indep _ [] (bgzf_block lib z (slice B 0%nat)))
        by (rewrite length_map, length_seq; exact Hi).
      rewrite (map_nth (fun x => bgzf_block lib z (slice B x))).
      rewrite seq_nth by exact Hi. reflexivity. }
    rewrite Hnth, block_CRC32_bgzf_block, block_ISIZE_bgzf_block.
    split; reflexivity.
Qed.

Lemma block_footer_witness :
  length (data_blocks StoredDeflate.api 6 [65; 66; 67]) = 1%nat
  /\ block_CRC32 (nth 0 (data_blocks StoredDeflate.api 6 [65; 66; 67]) [])
     = u32 (StoredDeflate.crc32 0 [65; 66; 67])
  /\ block_ISIZE (nth 0 (data_blocks StoredDeflate.api 6 [65; 66; 67]) []) = 3.
Proof.
  destruct (block_footer StoredDeflate.api (fun _ => 0) [65; 66; 67] 6 false
              (concat (data_blocks StoredDeflate.api 6 [65; 66; 67]))
              StoredDeflateFacts.api_output_fits)
    as (_ & Hlen & Hfooter).
  - vm_compute. reflexivity.
  - split; [exact Hlen |].
    apply (Hfooter 0%nat). rewrite <- Hlen. vm_compute. lia.
Defined.

(** A data block is never the marker. *)
Lemma data_block_is_not_marker (lib : libdeflate) (z : compressor lib)
    (c : list Z) :
  0 < len c <= BGZIP_BLOCK_SIZE -> bgzf_block lib z c <> eof_marker.
Proof.
  intros Hc E.
  assert (Hi : block_ISIZE (bgzf_block lib z c) = len c).
  { rewrite block_ISIZE_bgzf_block. unfold u32. apply Z.mod_small.
    unfold BGZIP_BLOCK_SIZE in Hc. lia. }
  rewrite E in Hi. change (block_ISIZE eof_marker) with 0 in Hi. lia.
Qed.

(** With or without the marker, a call either raises, and raises the same,
    or returns the data blocks, followed by the marker if asked for. *)
Lemma compress_blocked_outcome (lib : libdeflate) (uninit : nat -> Z)
    (B : list Z) (level : Z) :
  output_fits lib ->
  (exists m, forall e, result (compress_blocked lib uninit B level e) = Raised m)
  \/ (forall e,
        result (compress_blocked lib uninit B level e)
        = Ok (Bytea (concat (data_blocks lib level B)
                     ++ (if e then eof_marker else [])))).
Proof.
  intro Hfits.
  destruct (Z_lt_dec level (-1)) as [Hlo | Hlo];
    [| destruct (Z_lt_dec 9 level) as [Hhi | Hhi]].
  - left. exists (Invalid_compression_level level). intro e.
    unfold compress_blocked, pg_bgzip_compress. cbn [nargs arg0 arg1 arg2].
    change (negb (3 =? 2) && negb (3 =? 3)) with false. cbv iota.
    assert (E : (level <? -1) = true) by (apply Z.ltb_lt; exact Hlo).
    rewrite E. reflexivity.
  - left. exists (Invalid_compression_level level). intro e.
    unfold compress_blocked, pg_bgzip_compress. cbn [nargs arg0 arg1 arg2].
    change (negb (3 =? 2) && negb (3 =? 3)) with false. cbv iota.
    assert (E : (level >? 9) = true) by (apply Z.gtb_lt; exact Hhi).
    rewrite E, orb_true_r. reflexivity.
  - assert (Hlevel : -1 <= level <= 9) by lia.
    pose proof (@emitted_blocks_finishes lib (length B) level B (Nat.le_refl _))
      as Hfin.
    destruct (emitted_blocks lib (length B) level B) as [bl | m |] eqn:He.
    + right. intro e. rewrite compress_blocked_result, He by assumption.
      do 3 f_equal. unfold data_blocks.
      destruct (emitted_blocks_ok lib _ _ _ _ He) as [[E1 E2] | (z & Hz & Ebl & _)].
      * subst B bl. rewrite slices_nil.
        destruct (libdeflate_alloc_compressor_ex lib level); reflexivity.
      * rewrite Hz, Ebl, chunks_slices by lia. reflexivity.
    + left. exists m. intro e.
      rewrite compress_blocked_result, He by assumption. reflexivity.
    + congruence.
Qed.

(** C5.  The marker.  For a libdeflate that keeps to the room it is given,
    every buffer and every level.  A call of [compress_blocked] never ends
    in SQL NULL: it returns bytes or raises.  What it returns with the
    marker asked for is what it returns without, followed by the 28 bytes
    of [eof_marker]: they are the last 28 bytes of the output, and no data
    block before them is equal to them.  When it raises without, it raises
    the same with.  And bytes are returned: always for the empty buffer at
    a level between -1 and 9, where the output with the marker is the
    marker alone, and for every buffer when libdeflate has a compressor at
    the level and output for every chunk. *)
Theorem eof_marker_appended (lib : libdeflate) (uninit : nat -> Z)
    (B : list Z) (level : Z) :
  output_fits lib ->
  length eof_marker = 28%nat
  /\ result (compress_blocked lib uninit B level true) =
     match result (compress_blocked lib uninit B level false) with
     | Ok (Bytea out) => Ok (Bytea (out ++ eof_marker))
     | r => r
     end
  /\ result (compress_blocked lib uninit B level false) <> Ok Null
  /\ result (compress_blocked lib uninit B level true) <> Ok Null
  /\ (forall out',
        result (compress_blocked lib uninit B level true) = Ok (Bytea out') ->
        result (compress_blocked lib uninit B level false)
        = Ok (Bytea (concat (data_blocks lib level B)))
        /\ out' = concat (data_blocks lib level B) ++ eof_marker
        /\ skipn (length out' - 28) out' = eof_marker
        /\ Forall (fun b => b <> eof_marker) (data_blocks lib level B))
  /\ (-1 <= level <= 9 -> B = [] ->
      result (compress_blocked lib uninit B level false) = Ok (Bytea [])
      /\ result (compress_blocked lib uninit B level true) = Ok (Bytea eof_marker))
  /\ (forall z : compressor lib,
        chunk_fits lib -> -1 <= level <= 9 ->
        libdeflate_alloc_compressor_ex lib level = Some z ->
        result (compress_blocked lib uninit B level false)
        = Ok (Bytea (concat (data_blocks lib level B)))
        /\ result (compress_blocked lib uninit B level true)
           = Ok (Bytea (concat (data_blocks lib level B) ++ eof_marker))).
Proof.
  intro Hfits. split; [reflexivity |].
  assert (Hmarker : forall e z,
            chunk_fits lib -> -1 <= level <= 9 ->
            libdeflate_alloc_compressor_ex lib level = Some z ->
            result (compress_blocked lib uninit B level e)
            = Ok (Bytea (concat (data_blocks lib level B)
                         ++ (if e then eof_marker else [])))).
  { intros e z Hchunk Hlevel Hz.
    rewrite (compress_blocked_total lib uninit B level e z) by assumption.
    unfold stream_blocks. rewrite concat_app.
    destruct e; [cbn [concat]; rewrite app_nil_r |]; reflexivity. }
  assert (Hempty : -1 <= level <= 9 -> B = [] ->
            result (compress_blocked lib uninit B level false) = Ok (Bytea [])
            /\ result (compress_blocked lib uninit B level true)
               = Ok (Bytea eof_marker)).
  { intros Hlevel ->. split.
    - rewrite compress_blocked_empty by exact Hlevel. reflexivity.
    - unfold compress_blocked, pg_bgzip_compress. cbn [nargs arg0 arg1 arg2].
      change (negb (3 =? 2) && negb (3 =? 3)) with false. cbv iota.
      rewrite (level_accepted level Hlevel). reflexivity. }
  assert (Hreturns : forall z : compressor lib,
            chunk_fits lib -> -1 <= level <= 9 ->
            libdeflate_alloc_compressor_ex lib level = Some z ->
            result (compress_blocked lib uninit B level false)
            = Ok (Bytea (concat (data_blocks lib level B)))
            /\ result (compress_blocked lib uninit B level true)
               = Ok (Bytea (concat (data_blocks lib level B) ++ eof_marker))).
  { intros z Hchunk Hlevel Hz. split.
    - rewrite (Hmarker false z) by assumption. rewrite app_nil_r. reflexivity.
    - apply (Hmarker true z); assumption. }
  assert (Hnone : Forall (fun b => b <> eof_marker) (data_blocks lib level B)).
  { unfold data_blocks.
    destruct (libdeflate_alloc_compressor_ex lib level) as [z |]; [| constructor].
    apply Forall_map.
    eapply Forall_impl; [| apply slices_bounds].
    intros c Hc. apply data_block_is_not_marker. exact Hc. }
  assert (Hsame :
            result (compress_blocked lib uninit B level true) =
            match result (compress_blocked lib uninit B level false) with
            | Ok (Bytea out) => Ok (Bytea (out ++ eof_marker))
            | r => r
            end
            /\ result (compress_blocked lib uninit B level false) <> Ok Null
            /\ result (compress_blocked lib uninit B level true) <> Ok Null
            /\ (forall out',
                  result (compress_blocked lib uninit B level true)
                  = Ok (Bytea out') ->
                  result (compress_blocked lib uninit B level false)
                  = Ok (Bytea (concat (data_blocks lib level B)))
                  /\ out' = concat (data_blocks lib level B) ++ eof_marker
                  /\ skipn (length out' - 28) out' = eof_marker
                  /\ Forall (fun b => b <> eof_marker) (data_blocks lib level B))).
  { destruct (compress_blocked_outcome lib uninit B level Hfits)
      as [(m & Hm) | Hok].
    - rewrite !Hm.
      split; [reflexivity |]. split; [discriminate |]. split; [discriminate |].
      discriminate.
    - rewrite (Hok true), (Hok false), !app_nil_r.
      split; [reflexivity |]. split; [discriminate |]. split; [discriminate |].
      intros out' Hout'.
      assert (E : out' = concat (data_blocks lib level B) ++ eof_marker)
        by congruence.
      split; [reflexivity |]. split; [exact E |]. split; [| exact Hnone].
      rewrite E, length_app. change (length eof_marker) with 28%nat.
      replace (length (concat (data_blocks lib level B)) + 28 - 28)%nat
        with (length (concat (data_blocks lib level B))) by lia.
      apply skipn_app_exact. reflexivity. }
  destruct Hsame as (H1 & H2 & H3 & H4).
  split; [exact H1 |]. split; [exact H2 |]. split; [exact H3 |].
  split; [exact H4 |]. split; [exact Hempty | exact Hreturns].
Qed.

Lemma eof_marker_appended_witness :
  let B := [65; 66; 67] in
  let blocks := concat (data_blocks StoredDeflate.api 6 B) in
  result (compress_blocked StoredDeflate.api (fun _ => 0) B 6 true)
  = Ok (Bytea (blocks ++ eof_marker))
  /\ result (compress_blocked StoredDeflate.api (fun _ => 0) B 6 false)
     = Ok (Bytea blocks)
  /\ skipn (length (blocks ++ eof_marker) - 28) (blocks ++ eof_marker) = eof_marker
  /\ Forall (fun b => b <> eof_marker) (data_blocks StoredDeflate.api 6 B)
  /\ result (compress_blocked StoredDeflate.api (fun _ => 0) [] 6 true)
     = Ok (Bytea eof_marker).
Proof.
  cbv zeta.
  destruct (eof_marker_appended StoredDeflate.api (fun _ => 0) [65; 66; 67] 6
              StoredDeflateFacts.api_output_fits)
    as (_ & _ & _ & _ & Hback & _ & Hreturns).
  destruct (Hreturns 6 StoredDeflateFacts.api_chunk_fits) as [Hfalse Htrue];
    [lia | reflexivity |].
  destruct (Hback _ Htrue) as (_ & _ & Hlast & Hnone).
  destruct (eof_marker_appended StoredDeflate.api (fun _ => 0) [] 6
              StoredDeflateFacts.api_output_fits)
    as (_ & _ & _ & _ & _ & Hempty & _).
  destruct Hempty as [_ Hempty]; [lia | reflexivity |].
  repeat split; assumption.
Defined.

(** * The whole-buffer path *)

(** C6.  The room of [input_len + 18 + 8] bytes is not enough for every
    input.  With the storing libdeflate at level 0, a gzip member of 65536
    bytes of input takes 28 bytes more than the input (ten of header, two
    stored blocks of five bytes each before their data, eight of footer):
    in the room it is given the member has no place, and
    [compress_gzip] returns SQL NULL; with two bytes more it is written,
    and read back to the input. *)
Theorem gzip_room_too_small :
  let B := repeat 0 (Z.to_nat 65536) in
  result (compress_gzip StoredDeflate.api (fun _ => 0) B 0) = Ok Null
  /\ len (StoredDeflate.gzip_compress 0 B (len B + 28)) = len B + 28
  /\ option_map (bytes_eqb B)
       (StoredDeflate.gunzip (StoredDeflate.gzip_compress 0 B (len B + 28)))
     = Some true.
Proof. vm_compute. repeat split; reflexivity. Qed.

(** C7, as the claim has it: when libdeflate fails, the function fails with
    an error.  It does not.  With no compressor (one byte at level -1, for
    which the storing libdeflate has none) and with no output (65536 bytes
    at level 0, which have no place in the room given) alike, the call
    ends with a value, SQL NULL, and no error is raised or logged. *)
Lemma gzip_failure_is_not_an_error :
  libdeflate_alloc_compressor_ex StoredDeflate.api (-1) = None
  /\ compress_gzip StoredDeflate.api (fun _ => 0) [65] (-1)
     = ([Epalloc 31; Ealloc_compressor (-1); Epfree], Ok Null)
  /\ compress_gzip StoredDeflate.api (fun _ => 0) (repeat 0 (Z.to_nat 65536)) 0
     = ([Epalloc 65566; Ealloc_compressor 0; Egzip_compress 65536 65562;
         Elog WARNING Gzip_compress_failed; Epfree; Efree_compressor],
        Ok Null)
  /\ ~ (exists m,
         result (compress_gzip StoredDeflate.api (fun _ => 0) [65] (-1))
         = Raised m).
Proof.
  split; [reflexivity |]. split; [vm_compute; reflexivity |].
  split; [vm_compute; reflexivity |].
  intros (m & Hm). vm_compute in Hm. discriminate.
Qed.

(** C7, amended.  When libdeflate gives no compressor, or writes nothing,
    [compress_gzip] returns SQL NULL and no bytes at all.  What happens is
    exactly this: the output buffer is allocated, the compressor asked
    for, and then either it is not there, and the buffer is released; or
    it writes nothing, and a warning is logged, the buffer released and
    the compressor freed.  No error is raised or logged. *)
Theorem gzip_failure_returns_null (lib : libdeflate) (uninit : nat -> Z)
    (B : list Z) (level : Z) :
  -1 <= level <= 9 ->
  let room := len B + BLOCK_HEADER_LENGTH + BLOCK_FOOTER_LENGTH in
  (libdeflate_alloc_compressor_ex lib level = None ->
   compress_gzip lib uninit B level
   = ([Epalloc (room + VARHDRSZ); Ealloc_compressor level; Epfree], Ok Null))
  /\ (forall z,
        libdeflate_alloc_compressor_ex lib level = Some z ->
        libdeflate_gzip_compress lib z B room = [] ->
        compress_gzip lib uninit B level
        = ([Epalloc (room + VARHDRSZ); Ealloc_compressor level;
            Egzip_compress (len B) room; Elog WARNING Gzip_compress_failed;
            Epfree; Efree_compressor],
           Ok Null)).
Proof.
  intros Hlevel room.
  unfold compress_gzip, pg_bgzip_gzip_compress. cbn [arg0 arg1].
  rewrite (level_accepted level Hlevel). fold room.
  split.
  - intros Hz. rewrite Hz. reflexivity.
  - intros z Hz Hw. rewrite Hz, Hw. reflexivity.
Qed.

Lemma gzip_failure_returns_null_witness :
  compress_gzip StoredDeflate.api (fun _ => 0) [65] (-1)
  = ([Epalloc 31; Ealloc_compressor (-1); Epfree], Ok Null)
  /\ compress_gzip StoredDeflate.api (fun _ => 0) (repeat 0 (Z.to_nat 65536)) 0
     = ([Epalloc 65566; Ealloc_compressor 0; Egzip_compress 65536 65562;
         Elog WARNING Gzip_compress_failed; Epfree; Efree_compressor],
        Ok Null).
Proof.
  split.
  - apply (gzip_failure_returns_null StoredDeflate.api (fun _ => 0) [65] (-1)).
    + lia.
    + reflexivity.
  - apply (gzip_failure_returns_null StoredDeflate.api (fun _ => 0)
             (repeat 0 (Z.to_nat 65536)) 0) with (z := 0).
    + lia.
    + reflexivity.
    + vm_compute. reflexivity.
Defined.

(** * Errors *)

(** The value in the error of a chunk is what is left of the input when
    the chunk is reached: the length of the buffer less the offset of the
    chunk. *)
Lemma block_error_value (lib : libdeflate) (uninit : nat -> Z) (B : list Z)
    (level : Z) (e : bool) (m : message) :
  output_fits lib -> -1 <= level <= 9 ->
  result (compress_blocked lib uninit B level e) = Raised m ->
  exists k : nat,
    let offset := Z.of_nat k * BGZIP_BLOCK_SIZE in
    offset < len B
    /\ m = Error_compressing_the_block_at_position (len B - offset).
Proof.
  intros Hfits Hlevel H. rewrite compress_blocked_result in H by assumption.
  destruct (emitted_blocks lib (length B) level B) as [bl | m' |] eqn:He;
    try discriminate.
  destruct (emitted_blocks_raised lib _ _ _ _ He) as (k & Hm & Hk).
  exists k. cbv zeta.
  assert (Hlen : (k * Z.to_nat BGZIP_BLOCK_SIZE < length B)%nat).
  { destruct (Nat.lt_ge_cases (k * Z.to_nat BGZIP_BLOCK_SIZE) (length B)) as [Hlt | Hge];
      [exact Hlt |].
    exfalso. apply Hk. apply skipn_all2. exact Hge. }
  assert (Hoff : Z.of_nat k * BGZIP_BLOCK_SIZE
                 = Z.of_nat (k * Z.to_nat BGZIP_BLOCK_SIZE)).
  { rewrite Nat2Z.inj_mul, Z2Nat.id by (unfold BGZIP_BLOCK_SIZE; lia). reflexivity. }
  rewrite Hoff. split.
  - unfold len. lia.
  - assert (Em : m = m') by congruence. rewrite Em, Hm. f_equal.
    unfold len. rewrite length_skipn. lia.
Qed.

(** C8.  The error of a chunk carries what is left of the input, not the
    offset of the chunk.  One byte at level -1, for which the storing
    libdeflate (as libdeflate documents) has no compressor: the one chunk
    starts at offset 0, and the error says 1. *)
Theorem block_error_reports_remaining :
  compress_blocked StoredDeflate.api (fun _ => 0) [65] (-1) false
  = ([Epalloc 4; Erepalloc 65540; Ealloc_compressor (-1);
      Elog ERROR (Error_compressing_the_block_at_position 1)],
     Raised (Error_compressing_the_block_at_position 1)).
Proof. vm_compute. reflexivity. Qed.

(** C9.  Arguments are checked first.  At both entry points a null buffer,
    a null level or a level below -1 or above 9 raises an error for the
    argument, and so does a number of arguments other than two or three at
    [pg_bgzip_compress]; the error is all that happens: nothing is
    allocated, no compressor is asked for, nothing is returned.  Levels -1
    and 6 get past the check: the output buffer is allocated, and no error
    for an argument is raised. *)
Theorem invalid_arguments_rejected (lib : libdeflate) (uninit : nat -> Z) :
  (forall fcinfo : FunctionCallInfo,
     (arg0 fcinfo = None \/ arg1 fcinfo = None
      \/ exists l, arg1 fcinfo = Some l /\ (l < -1 \/ 9 < l)) ->
     (exists m, invalid_argument m
        /\ pg_bgzip_compress lib uninit fcinfo = ([Elog ERROR m], Raised m))
     /\ (exists m, invalid_argument m
        /\ pg_bgzip_gzip_compress lib uninit fcinfo = ([Elog ERROR m], Raised m)))
  /\ (forall fcinfo : FunctionCallInfo,
        nargs fcinfo <> 2 -> nargs fcinfo <> 3 ->
        pg_bgzip_compress lib uninit fcinfo
        = ([Elog ERROR (Invalid_number_of_arguments (nargs fcinfo))],
           Raised (Invalid_number_of_arguments (nargs fcinfo))))
  /\ (forall (B : list Z) (l : Z) (e : bool),
        l = -1 \/ l = 6 ->
        (exists t, trace (compress_blocked lib uninit B l e)
                   = Epalloc VARHDRSZ :: t)
        /\ (forall m, result (compress_blocked lib uninit B l e) = Raised m ->
                      ~ invalid_argument m)
        /\ (exists t, trace (compress_gzip lib uninit B l)
                      = Epalloc (len B + BLOCK_HEADER_LENGTH + BLOCK_FOOTER_LENGTH
                                 + VARHDRSZ) :: t)
        /\ (forall m, result (compress_gzip lib uninit B l) <> Raised m)).
Proof.
  split.
  - intros [n a0 a1 a2] Hbad. cbn [arg0 arg1] in Hbad.
    unfold pg_bgzip_compress, pg_bgzip_gzip_compress. cbn [nargs arg0 arg1 arg2].
    destruct (negb (n =? 2) && negb (n =? 3)) eqn:Hn.
    + split.
      * exists (Invalid_number_of_arguments n). split; [exact I | reflexivity].
      * destruct a0 as [B |]; [destruct a1 as [l |] |].
        -- destruct Hbad as [Hb | [Hb | (l' & Hb & Hl)]]; try discriminate.
           injection Hb as <-.
           exists (Invalid_compression_level l). split; [exact I |].
           assert (E : (l <? -1) || (l >? 9) = true).
           { apply orb_true_iff. destruct Hl; [left; apply Z.ltb_lt | right; apply Z.gtb_lt]; lia. }
           rewrite E. reflexivity.
        -- exists Null_arguments_not_accepted. split; [exact I | reflexivity].
        -- exists Null_arguments_not_accepted. split; [exact I | reflexivity].
    + destruct a0 as [B |]; [destruct a1 as [l |] |].
      * destruct Hbad as [Hb | [Hb | (l' & Hb & Hl)]]; try discriminate.
        injection Hb as <-.
        assert (E : (l <? -1) || (l >? 9) = true).
        { apply orb_true_iff. destruct Hl; [left; apply Z.ltb_lt | right; apply Z.gtb_lt]; lia. }
        rewrite E.
        split; exists (Invalid_compression_level l); (split; [exact I | reflexivity]).
      * split; exists Null_arguments_not_accepted; (split; [exact I | reflexivity]).
      * split; exists Null_arguments_not_accepted; (split; [exact I | reflexivity]).
  - split.
    { intros fcinfo H2 H3. unfold pg_bgzip_compress.
      apply Z.eqb_neq in H2, H3. rewrite H2, H3. reflexivity. }
    intros B l e Hl.
    assert (Hlevel : -1 <= l <= 9) by (destruct Hl; subst l; lia).
    split; [| split; [| split]].
    + unfold compress_blocked, pg_bgzip_compress. cbn [nargs arg0 arg1 arg2].
      change (negb (3 =? 2) && negb (3 =? 3)) with false. cbv iota.
      rewrite (level_accepted l Hlevel), trace_bind. eexists. reflexivity.
    + intros m Hm.
      destruct (pg_bgzip_compress_raises lib uninit
                  {| nargs := 3; arg0 := Some B; arg1 := Some l; arg2 := Some e |}
                  B l m (or_intror eq_refl) eq_refl eq_refl Hlevel Hm) as (p & ->).
      exact (fun F => F).
    + unfold compress_gzip, pg_bgzip_gzip_compress. cbn [arg0 arg1].
      rewrite (level_accepted l Hlevel), trace_bind. eexists. reflexivity.
    + intro m.
      unfold compress_gzip, pg_bgzip_gzip_compress. cbn [arg0 arg1].
      rewrite (level_accepted l Hlevel), !result_emit_bind.
      destruct (libdeflate_alloc_compressor_ex lib l) as [z |]; [| discriminate].
      rewrite result_emit_bind.
      destruct (len _ <=? 0).
      * rewrite result_elog_bind. discriminate.
      * rewrite result_emit_bind. discriminate.
Qed.

Lemma invalid_arguments_rejected_witness :
  let fcinfo := {| nargs := 2; arg0 := Some [65]; arg1 := Some 10; arg2 := None |} in
  (exists m, invalid_argument m
     /\ pg_bgzip_compress StoredDeflate.api (fun _ => 0) fcinfo
        = ([Elog ERROR m], Raised m))
  /\ (exists m, invalid_argument m
     /\ pg_bgzip_gzip_compress StoredDeflate.api (fun _ => 0) fcinfo
        = ([Elog ERROR m], Raised m)).
Proof.
  apply (proj1 (invalid_arguments_rejected StoredDeflate.api (fun _ => 0))).
  right. right. exists 10. cbn [arg1]. split; [reflexivity | lia].
Defined.

(** C10.  A null third argument.  Whatever the first two arguments, a
    call with three arguments of which the third is null does exactly what
    the call with [false] does, which is what the call with two arguments
    does; with a buffer and a level given, the error of null arguments is
    not raised for it. *)
Theorem null_append_eof_is_false (lib : libdeflate) (uninit : nat -> Z)
    (buffer : option (list Z)) (level : option Z) :
  let call n e :=
    pg_bgzip_compress lib uninit
      {| nargs := n; arg0 := buffer; arg1 := level; arg2 := e |} in
  call 3 None = call 3 (Some false)
  /\ (forall e, call 2 e = call 3 (Some false))
  /\ (buffer <> None /\ level <> None ->
      result (call 3 None) <> Raised Null_arguments_not_accepted).
Proof.
  cbv zeta. split; [| split].
  - unfold pg_bgzip_compress. cbn [nargs arg0 arg1 arg2]. reflexivity.
  - intro e. unfold pg_bgzip_compress. cbn [nargs arg0 arg1 arg2]. reflexivity.
  - intros [Hb Hl] H.
    destruct buffer as [B |]; [| congruence].
    destruct level as [l |]; [| congruence].
    destruct (Z_lt_dec l (-1)) as [Hlo | Hlo];
      [| destruct (Z_lt_dec 9 l) as [Hhi | Hhi]].
    + unfold pg_bgzip_compress in H. cbn [nargs arg0 arg1 arg2] in H.
      change (negb (3 =? 2) && negb (3 =? 3)) with false in H. cbv iota in H.
      assert (E : (l <? -1) = true) by (apply Z.ltb_lt; exact Hlo).
      rewrite E in H. discriminate.
    + unfold pg_bgzip_compress in H. cbn [nargs arg0 arg1 arg2] in H.
      change (negb (3 =? 2) && negb (3 =? 3)) with false in H. cbv iota in H.
      assert (E : (l >? 9) = true) by (apply Z.gtb_lt; exact Hhi).
      rewrite E, orb_true_r in H. discriminate.
    + destruct (pg_bgzip_compress_raises lib uninit
                  {| nargs := 3; arg0 := Some B; arg1 := Some l; arg2 := None |}
                  B l _ (or_intror eq_refl) eq_refl eq_refl ltac:(lia) H) as (p & Hp).
      discriminate.
Qed.

Lemma null_append_eof_is_false_witness :
  result (pg_bgzip_compress StoredDeflate.api (fun _ => 0)
            {| nargs := 3; arg0 := Some [65]; arg1 := Some 6; arg2 := None |})
  <> Raised Null_arguments_not_accepted.
Proof.
  apply (null_append_eof_is_false StoredDeflate.api (fun _ => 0) (Some [65]) (Some 6)).
  split; discriminate.
Defined.

(** * Runs *)

(** The check value of CRC-32. *)
Example crc32_check_value :
  StoredDeflate.crc32 0 [49; 50; 51; 52; 53; 54; 55; 56; 57] = 0xCBF43926.
Proof. vm_compute. reflexivity. Qed.

(** 0xff01 times the byte 65, level 6, marker asked for: a block of the
    first 0xff00 bytes, a block of the last byte, the marker; read back,
    the stream gives the buffer. *)
Example two_blocks_and_marker :
  let B := repeat 65 (Z.to_nat 0xff01) in
  match result (compress_blocked StoredDeflate.api (fun _ => 0) B 6 true) with
  | Ok (Bytea out) =>
      option_map (map (fun b => (len b, block_BSIZE b, block_ISIZE b)))
        (bgzf_split (length out) out)
      = Some [(65311, 65310, 0xff00); (32, 31, 1); (28, 27, 0)]
      /\ skipn (length out - 28) out = eof_marker
      /\ option_map (bytes_eqb B)
           (bgzf_decode StoredDeflate.api StoredDeflate.inflate out)
         = Some true
  | _ => False
  end.
Proof. vm_compute. repeat split; reflexivity. Qed.

(** Three bytes through the whole-buffer path and back. *)
Example gzip_member_of_three_bytes :
  result (compress_gzip StoredDeflate.api (fun _ => 0) [65; 66; 67] 6)
  = Ok (Bytea [31; 139; 8; 0; 0; 0; 0; 0; 0; 255;
               1; 3; 0; 252; 255; 65; 66; 67;
               72; 3; 131; 163; 3; 0; 0; 0])
  /\ StoredDeflate.gunzip
       [31; 139; 8; 0; 0; 0; 0; 0; 0; 255;
        1; 3; 0; 252; 255; 65; 66; 67;
        72; 3; 131; 163; 3; 0; 0; 0] = Some [65; 66; 67].
Proof. vm_compute. split; reflexivity. Qed.

(** The empty buffer through the whole-buffer path: a member of 23
    bytes. *)
Example gzip_member_of_nothing :
  result (compress_gzip StoredDeflate.api (fun _ => 0) [] 6)
  = Ok (Bytea [31; 139; 8; 0; 0; 0; 0; 0; 0; 255;
               1; 0; 0; 255; 255; 0; 0; 0; 0; 0; 0; 0; 0]).
Proof. vm_compute. reflexivity. Qed.

(** * More on the helpers and the encoder *)

Lemma memcpy_within (buf s : list Z) (off : Z) :
  0 <= off -> off + len s <= len buf ->
  length (memcpy buf off s) = length buf
  /\ firstn (Z.to_nat off) (memcpy buf off s) = firstn (Z.to_nat off) buf
  /\ firstn (length s) (skipn (Z.to_nat off) (memcpy buf off s)) = s
  /\ skipn (Z.to_nat off + length s) (memcpy buf off s)
     = skipn (Z.to_nat off + length s) buf.
Proof.
  intros Hoff Hlen. unfold len in Hlen.
  destruct (buffer_split buf (Z.to_nat off + length s)) as (ab & c & E & Lab & Ec);
    [lia |].
  destruct (buffer_split ab (Z.to_nat off)) as (a & b & E' & La & _); [lia |].
  assert (Lb : length b = length s) by (rewrite E', length_app in Lab; lia).
  rewrite <- Ec. subst buf ab. rewrite <- app_assoc.
  rewrite memcpy_middle by (symmetry; assumption || congruence).
  repeat split.
  - rewrite !length_app. lia.
  - rewrite !firstn_app_exact by exact La. reflexivity.
  - rewrite skipn_app_exact by exact La. apply firstn_app_exact. reflexivity.
  - rewrite (app_assoc a s c).
    rewrite skipn_app_exact by (rewrite length_app; lia). reflexivity.
Qed.

Lemma u16_range (x : Z) : 0 <= u16 x < 65536.
Proof. unfold u16. apply Z.mod_pos_bound. lia. Qed.

Lemma packInt16_any (buffer : list Z) (off v : Z) :
  packInt16 buffer off v = memcpy buffer off (le_bytes 2 (u16 v)).
Proof.
  unfold packInt16, packInt16_on, host_order, htole16, object_bytes.
  pose proof (u16_range v) as H.
  assert (E1 : u16 (u16 v) = u16 v) by (unfold u16 at 1; apply Z.mod_small; lia).
  assert (E2 : u32 (u16 v) = u16 v) by (unfold u32; apply Z.mod_small; lia).
  rewrite E1, E2. reflexivity.
Qed.

(** X1.  [packInt16] on the host modelled: for a place within the buffer,
    the two bytes there become the value modulo 2^16, least significant
    byte first, and nothing else of the buffer changes, its length
    included. *)
Theorem packInt16_writes_two_bytes (buffer : list Z) (off value : Z) :
  0 <= off -> off + 2 <= len buffer ->
  let buffer' := packInt16 buffer off value in
  length buffer' = length buffer
  /\ firstn (Z.to_nat off) buffer' = firstn (Z.to_nat off) buffer
  /\ skipn (Z.to_nat off + 2) buffer' = skipn (Z.to_nat off + 2) buffer
  /\ firstn 2 (skipn (Z.to_nat off) buffer')
     = [value mod 256; value / 256 mod 256]
  /\ le_decode (firstn 2 (skipn (Z.to_nat off) buffer')) = value mod 2 ^ 16.
Proof.
  intros Hoff Hlen. cbv zeta. rewrite packInt16_any.
  destruct (memcpy_within buffer (le_bytes 2 (u16 value)) off Hoff)
    as (H1 & H2 & H3 & H4).
  { unfold len at 1. rewrite length_le_bytes. lia. }
  rewrite length_le_bytes in H3, H4.
  assert (Hb : le_bytes 2 (u16 value) = [value mod 256; value / 256 mod 256]).
  { cbn [le_bytes]. unfold u16.
    set (r := value mod 256). set (q := value / 256 mod 256).
    assert (Hr : 0 <= r < 256) by (apply Z.mod_pos_bound; lia).
    assert (Hq : 0 <= q < 256) by (apply Z.mod_pos_bound; lia).
    assert (E : value mod 2 ^ 16 = r + q * 256).
    { change (2 ^ 16) with (256 * 256). rewrite Z.rem_mul_r by lia.
      fold r q. lia. }
    rewrite E. f_equal; [| f_equal].
    - rewrite Z.mod_add by lia. apply Z.mod_small. exact Hr.
    - rewrite Z.div_add by lia. rewrite (Z.div_small r) by exact Hr.
      rewrite Z.add_0_l. apply Z.mod_small. exact Hq. }
  repeat split; try assumption.
  - rewrite H3. exact Hb.
  - rewrite H3. apply le_decode_le_bytes.
    change (256 ^ Z.of_nat 2) with 65536. apply u16_range.
Qed.

Lemma packInt16_writes_two_bytes_witness :
  let buffer' := packInt16 [1; 2; 3; 4; 5] 1 0x1BEEF in
  length buffer' = 5%nat
  /\ firstn (Z.to_nat 1) buffer' = [1]
  /\ skipn (Z.to_nat 1 + 2) buffer' = [4; 5]
  /\ firstn 2 (skipn (Z.to_nat 1) buffer') = [0xEF; 0xBE]
  /\ le_decode (firstn 2 (skipn (Z.to_nat 1) buffer')) = 0xBEEF.
Proof.
  apply (packInt16_writes_two_bytes [1; 2; 3; 4; 5] 1 0x1BEEF).
  - lia.
  - vm_compute. discriminate.
Defined.

(** X2.  [packInt32]: for a place within the buffer, the four bytes there
    become the value modulo 2^32, least significant byte first, and nothing
    else of the buffer changes, its length included. *)
Theorem packInt32_writes_four_bytes (buffer : list Z) (off value : Z) :
  0 <= off -> off + 4 <= len buffer ->
  let buffer' := packInt32 buffer off value in
  length buffer' = length buffer
  /\ firstn (Z.to_nat off) buffer' = firstn (Z.to_nat off) buffer
  /\ skipn (Z.to_nat off + 4) buffer' = skipn (Z.to_nat off + 4) buffer
  /\ le_decode (firstn 4 (skipn (Z.to_nat off) buffer')) = value mod 2 ^ 32.
Proof.
  intros Hoff Hlen. cbv zeta. rewrite packInt32_bytes.
  destruct (memcpy_within buffer (le_bytes 4 (u32 value)) off Hoff)
    as (H1 & H2 & H3 & H4).
  { unfold len at 1. rewrite length_le_bytes. lia. }
  rewrite length_le_bytes in H3, H4.
  repeat split; try assumption.
  rewrite H3. apply le_decode_le_bytes, u32_range.
Qed.

Lemma packInt32_writes_four_bytes_witness :
  let buffer' := packInt32 [1; 2; 3; 4; 5; 6] 1 0x1DEADBEEF in
  length buffer' = 6%nat
  /\ firstn (Z.to_nat 1) buffer' = [1]
  /\ skipn (Z.to_nat 1 + 4) buffer' = [6]
  /\ le_decode (firstn 4 (skipn (Z.to_nat 1) buffer')) = 0xDEADBEEF.
Proof.
  apply (packInt32_writes_four_bytes [1; 2; 3; 4; 5; 6] 1 0x1DEADBEEF).
  - lia.
  - vm_compute. discriminate.
Defined.

Lemma le_bytes_le_decode (bs : list Z) :
  Forall (fun b => 0 <= b < 256) bs ->
  le_bytes (length bs) (le_decode bs) = bs.
Proof.
  induction 1 as [| b bs Hb HF IH]; [reflexivity |].
  cbn [length le_bytes le_decode].
  replace (b + 256 * le_decode bs) with (b + le_decode bs * 256) by lia.
  f_equal.
  - rewrite Z.mod_add by lia. apply Z.mod_small. exact Hb.
  - rewrite Z.div_add by lia.
    rewrite (Z.div_small b) by exact Hb. rewrite Z.add_0_l. exact IH.
Qed.

Lemma le_bytes_range (n : nat) (x : Z) :
  Forall (fun b => 0 <= b < 256) (le_bytes n x).
Proof.
  revert x. induction n as [| n IH]; intro x; cbn [le_bytes]; constructor.
  - apply Z.mod_pos_bound. lia.
  - apply IH.
Qed.

(** X3.  [packInt32] does not depend on the byte order of the host: where
    integers are stored most significant byte first, [htole32] swaps the
    bytes and the four bytes copied are the same as on the other hosts. *)
Theorem packInt32_any_host (buffer : list Z) (off value : Z) :
  packInt32_on BigEndian buffer off value
  = packInt32_on LittleEndian buffer off value.
Proof.
  unfold packInt32_on, htole32, object_bytes, bswap.
  set (x := u32 value). f_equal.
  assert (Hx : u32 x = x) by apply u32_idem. rewrite Hx.
  set (L := le_bytes 4 x).
  assert (LL : length (rev L) = 4%nat)
    by (rewrite length_rev; apply length_le_bytes).
  assert (E : le_bytes 4 (le_decode (rev L)) = rev L).
  { rewrite <- LL at 1. apply le_bytes_le_decode.
    apply Forall_rev, le_bytes_range. }
  rewrite E, rev_involutive. reflexivity.
Qed.

(** X4.  [packInt16] does depend on it: the swapped value is kept in a
    [uint32_t], and where integers are stored most significant byte first
    the two bytes copied from it are its upper half.  Whatever the value,
    the two bytes written are zero; a BSIZE written there reads 0. *)
Theorem packInt16_big_endian_host (buffer : list Z) (off value : Z) :
  0 <= off -> off + 2 <= len buffer ->
  let buffer' := packInt16_on BigEndian buffer off value in
  length buffer' = length buffer
  /\ firstn 2 (skipn (Z.to_nat off) buffer') = [0; 0]
  /\ le_decode (firstn 2 (skipn (Z.to_nat off) buffer')) = 0.
Proof.
  intros Hoff Hlen. cbv zeta. rewrite packInt16_big_endian.
  destruct (memcpy_within buffer [0; 0] off Hoff) as (H1 & _ & H3 & _).
  { change (len [0; 0]) with 2. lia. }
  cbn [length] in H3. rewrite H3. auto.
Qed.

Lemma packInt16_big_endian_host_witness :
  let buffer' := packInt16_on BigEndian [1; 2; 3; 4; 5] 1 0xBEEF in
  length buffer' = 5%nat
  /\ firstn 2 (skipn (Z.to_nat 1) buffer') = [0; 0]
  /\ le_decode (firstn 2 (skipn (Z.to_nat 1) buffer')) = 0.
Proof.
  apply (packInt16_big_endian_host [1; 2; 3; 4; 5] 1 0xBEEF).
  - lia.
  - vm_compute. discriminate.
Defined.

(** X5.  The encoder on an empty chunk.  With at least 28 bytes of room it
    writes the 28 bytes of [eof_marker], reports 28 and returns 0, without
    a call of libdeflate and without touching what follows; told of less
    than 28 bytes it returns -1 and writes nothing. *)
Theorem empty_chunk_is_eof_marker (lib : libdeflate) (dst : list Z)
    (dlen level : Z) :
  (28 <= length dst)%nat ->
  (28 <= dlen ->
   bgzip_compress_block lib dst dlen [] level
   = ([], Ok (0, eof_marker ++ skipn 28 dst, 28)))
  /\ (dlen < 28 ->
      bgzip_compress_block lib dst dlen [] level = ([], Ok (-1, dst, dlen))).
Proof.
  intro Hroom. split.
  - intro Hd. apply bgzip_compress_block_empty; assumption.
  - intro Hd. unfold bgzip_compress_block.
    change (len (@nil Z) =? 0) with true. cbv iota.
    assert (H : (dlen <? 28) = true) by (apply Z.ltb_lt; exact Hd).
    rewrite H. reflexivity.
Qed.

Lemma empty_chunk_is_eof_marker_witness :
  bgzip_compress_block StoredDeflate.api (repeat 7 30) 0x10000 [] 6
  = ([], Ok (0, eof_marker ++ [7; 7], 28))
  /\ bgzip_compress_block StoredDeflate.api (repeat 7 30) 27 [] 6
     = ([], Ok (-1, repeat 7 30, 27)).
Proof.
  destruct (empty_chunk_is_eof_marker StoredDeflate.api (repeat 7 30) 0x10000 6)
    as [H _]; [cbn [repeat length]; lia |].
  destruct (empty_chunk_is_eof_marker StoredDeflate.api (repeat 7 30) 27 6)
    as [_ H']; [cbn [repeat length]; lia |].
  split.
  - apply H. lia.
  - apply H'. lia.
Defined.

(** X6.  The encoder when libdeflate fails on a chunk that is not empty.
    Without a compressor it returns -1 at once, libdeflate is not asked to
    compress, and the destination and [*dlen] are as they were.  With a
    compressor that reports no output it logs a warning, frees the
    compressor and returns -1 with [*dlen] as it was: the encoder itself
    writes nothing, so the destination keeps its length, the 18 bytes of
    the header before the room given to libdeflate, and every byte after
    that room.  Nothing is said of the room itself. *)
Theorem encoder_failure_writes_no_header (lib : libdeflate)
    (dst : list Z) (dlen : Z) (src : list Z) (level : Z) :
  src <> [] ->
  (libdeflate_alloc_compressor_ex lib level = None ->
   bgzip_compress_block lib dst dlen src level
   = ([Ealloc_compressor level], Ok (-1, dst, dlen)))
  /\ (forall z,
        libdeflate_alloc_compressor_ex lib level = Some z ->
        let avail := size_t (dlen - BLOCK_HEADER_LENGTH - BLOCK_FOOTER_LENGTH) in
        libdeflate_deflate_compress lib z src avail = [] ->
        exists dst',
          bgzip_compress_block lib dst dlen src level
          = ([Ealloc_compressor level; Edeflate_compress (len src) avail;
              Elog WARNING Deflate_compress_failed; Efree_compressor],
             Ok (-1, dst', dlen))
          /\ length dst' = length dst
          /\ firstn (Z.to_nat BLOCK_HEADER_LENGTH) dst'
             = firstn (Z.to_nat BLOCK_HEADER_LENGTH) dst
          /\ skipn (Z.to_nat (BLOCK_HEADER_LENGTH + avail)) dst'
             = skipn (Z.to_nat (BLOCK_HEADER_LENGTH + avail)) dst).
Proof.
  intro Hsrc.
  assert (Hslen : (len src =? 0) = false)
    by (apply Z.eqb_neq; rewrite len_nil_iff; exact Hsrc).
  unfold bgzip_compress_block. rewrite Hslen. split.
  - intro Hz. rewrite Hz. reflexivity.
  - intros z Hz. cbv zeta. intro Hw. rewrite Hz, Hw.
    change (len (@nil Z) <=? 0) with true. cbv iota.
    unfold memcpy. cbn [length app]. rewrite Nat.add_0_r, firstn_skipn.
    exists dst. repeat split; reflexivity.
Qed.

Lemma encoder_failure_writes_no_header_witness :
  bgzip_compress_block StoredDeflate.api (repeat 7 40) 40 [65] (-1)
  = ([Ealloc_compressor (-1)], Ok (-1, repeat 7 40, 40))
  /\ exists dst',
       bgzip_compress_block StoredDeflate.api (repeat 7 40) 30 [65] 6
       = ([Ealloc_compressor 6; Edeflate_compress 1 4;
           Elog WARNING Deflate_compress_failed; Efree_compressor],
          Ok (-1, dst', 30))
       /\ length dst' = 40%nat
       /\ firstn 18 dst' = repeat 7 18
       /\ skipn 22 dst' = repeat 7 18.
Proof.
  split.
  - apply (encoder_failure_writes_no_header StoredDeflate.api (repeat 7 40)
             40 [65] (-1)).
    + discriminate.
    + reflexivity.
  - apply (encoder_failure_writes_no_header StoredDeflate.api (repeat 7 40)
             30 [65] 6) with (z := 6).
    + discriminate.
    + reflexivity.
    + vm_compute. reflexivity.
Defined.

(** The encoder with any room: what it writes. *)
Lemma bgzip_compress_block_writes_any (lib : libdeflate) (dst : list Z)
    (dlen : Z) (src : list Z) (level : Z) (z : compressor lib) :
  src <> [] ->
  libdeflate_alloc_compressor_ex lib level = Some z ->
  26 <= dlen < 2 ^ 64 ->
  let payload := libdeflate_deflate_compress lib z src (dlen - 26) in
  payload <> [] ->
  len payload <= dlen - 26 ->
  (length payload + 26 <= length dst)%nat ->
  result (bgzip_compress_block lib dst dlen src level) =
  Ok (0,
      (firstn 16 g_magic ++ le_bytes 2 (u16 (len payload + 25)) ++ payload
       ++ le_bytes 4 (u32 (libdeflate_crc32 lib 0 src))
       ++ le_bytes 4 (u32 (len src)))
      ++ skipn (length payload + 26) dst,
      len payload + 26).
Proof.
  intros Hsrc Hz Hdlen payload Hp Hfit Hdst.
  unfold bgzip_compress_block.
  assert (Hslen : (len src =? 0) = false)
    by (apply Z.eqb_neq; rewrite len_nil_iff; exact Hsrc).
  rewrite Hslen, result_emit_bind, Hz.
  unfold BLOCK_HEADER_LENGTH, BLOCK_FOOTER_LENGTH.
  assert (Ha : size_t (dlen - 18 - 8) = dlen - 26)
    by (unfold size_t; rewrite Z.mod_small; lia).
  rewrite Ha. fold payload. rewrite result_emit_bind.
  assert (Hpos : 0 < len payload).
  { pose proof (len_nonneg payload).
    assert (len payload <> 0) by (rewrite len_nil_iff; exact Hp). lia. }
  assert (Hclen : (len payload <=? 0) = false) by (apply Z.leb_gt; exact Hpos).
  rewrite Hclen, !result_emit_bind.
  unfold ret, result, snd.
  assert (Hd : size_t (len payload + 18 + 8) = len payload + 26)
    by (unfold size_t; rewrite Z.mod_small; lia).
  rewrite Hd.
  assert (H1 : size_t (len payload + 26 - 1) = len payload + 25)
    by (unfold size_t; rewrite Z.mod_small; lia).
  assert (H8 : size_t (len payload + 26 - 8) = len payload + 18)
    by (unfold size_t; rewrite Z.mod_small; lia).
  assert (H4 : size_t (len payload + 26 - 4) = len payload + 22)
    by (unfold size_t; rewrite Z.mod_small; lia).
  rewrite H1, H8, H4.
  rewrite packInt16_any. rewrite !packInt32_bytes, u32_idem.
  destruct (buffer_split dst (length payload + 26) Hdst) as (blk & r & Edst & Lblk & Er).
  destruct (buffer_split blk 16) as (h16 & blk1 & E1 & L16 & _); [lia |].
  assert (Lblk1 : length blk1 = (length payload + 10)%nat)
    by (rewrite E1, length_app in Lblk; lia).
  destruct (buffer_split blk1 2) as (h2 & blk2 & E2 & L2 & _); [lia |].
  assert (Lblk2 : length blk2 = (length payload + 8)%nat)
    by (rewrite E2, length_app in Lblk1; lia).
  destruct (buffer_split blk2 (length payload)) as (p & blk3 & E3 & Lp & _); [lia |].
  assert (Lblk3 : length blk3 = 8%nat)
    by (rewrite E3, length_app in Lblk2; lia).
  destruct (buffer_split blk3 4) as (f1 & f2 & E4 & Lf1 & _); [lia |].
  assert (Lf2 : length f2 = 4%nat)
    by (rewrite E4, length_app in Lblk3; lia).
  rewrite <- Er. subst dst blk blk1 blk2 blk3.
  set (g16 := firstn 16 g_magic).
  set (bsz := le_bytes 2 (u16 (len payload + 25))).
  set (crc := le_bytes 4 (u32 (libdeflate_crc32 lib 0 src))).
  set (isz := le_bytes 4 (u32 (len src))).
  assert (S1 : memcpy ((h16 ++ h2 ++ p ++ f1 ++ f2) ++ r) 18 payload
               = (h16 ++ h2) ++ payload ++ (f1 ++ f2 ++ r)).
  { rewrite <- (memcpy_middle (h16 ++ h2) p (f1 ++ f2 ++ r) payload 18).
    - f_equal. rewrite <- !app_assoc. reflexivity.
    - rewrite length_app. change (Z.to_nat 18) with 18%nat. lia.
    - lia. }
  rewrite S1.
  assert (S2 : memcpy ((h16 ++ h2) ++ payload ++ f1 ++ f2 ++ r) 0
                 (firstn (Z.to_nat 18) g_magic)
               = g16 ++ [0; 0] ++ payload ++ f1 ++ f2 ++ r).
  { rewrite memcpy_front.
    - reflexivity.
    - rewrite length_app, L16, L2. reflexivity. }
  rewrite S2.
  assert (S3 : memcpy (g16 ++ [0; 0] ++ payload ++ f1 ++ f2 ++ r) 16 bsz
               = (g16 ++ bsz ++ payload) ++ f1 ++ (f2 ++ r)).
  { rewrite memcpy_middle.
    - rewrite <- !app_assoc. reflexivity.
    - reflexivity.
    - reflexivity. }
  rewrite S3.
  assert (Lfront : length (g16 ++ bsz ++ payload) = (length payload + 18)%nat).
  { rewrite !length_app. unfold bsz. rewrite length_le_bytes.
    change (length g16) with 16%nat. lia. }
  assert (S4 : memcpy ((g16 ++ bsz ++ payload) ++ f1 ++ (f2 ++ r))
                 (len payload + 18) crc
               = ((g16 ++ bsz ++ payload) ++ crc) ++ f2 ++ r).
  { rewrite memcpy_middle.
    - rewrite <- !app_assoc. reflexivity.
    - rewrite Lfront. unfold len. lia.
    - unfold crc. rewrite length_le_bytes. lia. }
  rewrite S4.
  assert (S5 : memcpy (((g16 ++ bsz ++ payload) ++ crc) ++ f2 ++ r)
                 (len payload + 22) isz
               = ((g16 ++ bsz ++ payload) ++ crc) ++ isz ++ r).
  { apply memcpy_middle.
    - rewrite length_app, Lfront. unfold crc. rewrite length_le_bytes.
      unfold len. lia.
    - unfold isz. rewrite length_le_bytes. lia. }
  rewrite S5.
  rewrite <- !app_assoc. reflexivity.
Qed.

(** X7.  The encoder keeps to the room it is told of.  For a chunk that is
    not empty, a room [*dlen] of 26 bytes or more that the destination
    really has, a compressor, and output of libdeflate within the room
    less 26: the encoder returns 0, the length it reports is the payload
    and 26 and is no more than the room, the destination keeps its length
    and every byte after the room [*dlen] it was told of, the payload of
    the block is what libdeflate wrote, and the BSIZE field holds the
    length of the block less one modulo 2^16 (it is exact only for blocks
    of at most 0x10000 bytes).  Nothing is said of the bytes between the
    end of the block and the end of the room, which were libdeflate's to
    write. *)
Theorem encoder_keeps_to_its_room (lib : libdeflate) (dst : list Z)
    (dlen : Z) (src : list Z) (level : Z) (z : compressor lib) :
  src <> [] ->
  libdeflate_alloc_compressor_ex lib level = Some z ->
  26 <= dlen < 2 ^ 64 -> dlen <= len dst ->
  let payload := libdeflate_deflate_compress lib z src (dlen - 26) in
  payload <> [] ->
  len payload <= dlen - 26 ->
  exists dst',
    result (bgzip_compress_block lib dst dlen src level)
    = Ok (0, dst', len payload + 26)
    /\ len payload + 26 <= dlen
    /\ length dst' = length dst
    /\ skipn (Z.to_nat dlen) dst' = skipn (Z.to_nat dlen) dst
    /\ block_payload (firstn (length payload + 26) dst') = payload
    /\ block_BSIZE (firstn (length payload + 26) dst')
       = (len payload + 26 - 1) mod 2 ^ 16.
Proof.
  intros Hsrc Hz Hdlen Hroom payload Hp Hfit.
  assert (Hdst : (length payload + 26 <= length dst)%nat)
    by (unfold len in *; lia).
  eexists. split.
  { apply (bgzip_compress_block_writes_any lib dst dlen src level z); assumption. }
  fold payload.
  set (bsz := le_bytes 2 (u16 (len payload + 25))).
  set (crc := le_bytes 4 (u32 (libdeflate_crc32 lib 0 src))).
  set (isz := le_bytes 4 (u32 (len src))).
  set (blk := firstn 16 g_magic ++ bsz ++ payload ++ crc ++ isz).
  assert (Lblk : length blk = (length payload + 26)%nat).
  { unfold blk, bsz, crc, isz. rewrite !length_app, !length_le_bytes.
    change (length (firstn 16 g_magic)) with 16%nat. lia. }
  split; [lia |]. split; [| split; [| split]].
  - rewrite length_app, Lblk, length_skipn. lia.
  - assert (Ek : exists k, Z.to_nat dlen = (k + (length payload + 26))%nat).
    { exists (Z.to_nat dlen - (length payload + 26))%nat.
      unfold len in Hfit. lia. }
    destruct Ek as [k ->].
    rewrite <- (skipn_skipn k (length payload + 26) dst).
    rewrite <- (skipn_skipn k (length payload + 26)).
    f_equal. apply skipn_app_exact. exact Lblk.
  - rewrite firstn_app_exact by exact Lblk.
    unfold block_payload. rewrite Lblk.
    replace (length payload + 26 - 26)%nat with (length payload) by lia.
    unfold blk. rewrite (app_assoc (firstn 16 g_magic)).
    rewrite skipn_app_exact
      by (rewrite length_app; unfold bsz; rewrite length_le_bytes; reflexivity).
    apply firstn_app_exact. reflexivity.
  - rewrite firstn_app_exact by exact Lblk.
    unfold block_BSIZE, blk.
    rewrite skipn_app_exact by reflexivity.
    rewrite firstn_app_exact by (unfold bsz; apply length_le_bytes).
    unfold bsz. rewrite le_decode_le_bytes.
    + unfold u16. f_equal. lia.
    + change (256 ^ Z.of_nat 2) with 65536. apply u16_range.
Qed.

Lemma encoder_keeps_to_its_room_witness :
  exists dst',
    result (bgzip_compress_block StoredDeflate.api (repeat 7 40) 36 [65; 66; 67] 6)
    = Ok (0, dst', 34)
    /\ 34 <= 36
    /\ length dst' = 40%nat
    /\ skipn 36 dst' = [7; 7; 7; 7]
    /\ block_payload (firstn 34 dst') = [1; 3; 0; 252; 255; 65; 66; 67]
    /\ block_BSIZE (firstn 34 dst') = 33.
Proof.
  apply (encoder_keeps_to_its_room StoredDeflate.api (repeat 7 40) 36
           [65; 66; 67] 6 6).
  - discriminate.
  - reflexivity.
  - lia.
  - vm_compute. discriminate.
  - vm_compute. discriminate.
  - vm_compute. discriminate.
Defined.

(** X8.  The encoder does not check the room before it compresses a chunk
    that is not empty.  Told of less than 26 bytes, the room it passes on
    to libdeflate is the difference in [size_t], which wraps around:
    2^64 - 26 + [*dlen] bytes. *)
Theorem encoder_room_wraps_around (lib : libdeflate) (dst : list Z)
    (dlen : Z) (src : list Z) (level : Z) (z : compressor lib) :
  src <> [] ->
  libdeflate_alloc_compressor_ex lib level = Some z ->
  0 <= dlen < 26 ->
  exists t,
    trace (bgzip_compress_block lib dst dlen src level)
    = Ealloc_compressor level
      :: Edeflate_compress (len src) (2 ^ 64 - 26 + dlen) :: t.
Proof.
  intros Hsrc Hz Hdlen.
  assert (Hslen : (len src =? 0) = false)
    by (apply Z.eqb_neq; rewrite len_nil_iff; exact Hsrc).
  unfold bgzip_compress_block. rewrite Hslen, trace_bind, Hz.
  cbn [emit trace result fst snd app]. rewrite trace_bind.
  assert (Ha : size_t (dlen - BLOCK_HEADER_LENGTH - BLOCK_FOOTER_LENGTH)
               = 2 ^ 64 - 26 + dlen).
  { unfold size_t, BLOCK_HEADER_LENGTH, BLOCK_FOOTER_LENGTH.
    symmetry. apply (Z.mod_unique _ _ (-1)); lia. }
  rewrite Ha. cbn [emit trace result fst snd app]. eexists. reflexivity.
Qed.

Lemma encoder_room_wraps_around_witness :
  exists t,
    trace (bgzip_compress_block StoredDeflate.api (repeat 7 40) 20 [65] 6)
    = Ealloc_compressor 6
      :: Edeflate_compress (len [65]) (2 ^ 64 - 26 + 20) :: t.
Proof.
  apply (encoder_room_wraps_around StoredDeflate.api (repeat 7 40) 20 [65] 6 6).
  - discriminate.
  - reflexivity.
  - lia.
Defined.

(** * More on the two entry points *)

Lemma nth_data_blocks (lib : libdeflate) (z : compressor lib) (B : list Z)
    (i : nat) :
  (i < length (slices B))%nat ->
  nth i (map (bgzf_block lib z) (slices B)) [] = bgzf_block lib z (slice B i).
Proof.
  intro Hi. rewrite length_slices in Hi.
  unfold slices. rewrite map_map.
  rewrite (nth_indep _ [] (bgzf_block lib z (slice B 0%nat)))
    by (rewrite length_map, length_seq; exact Hi).
  rewrite (map_nth (fun x => bgzf_block lib z (slice B x))).
  rewrite seq_nth by exact Hi. reflexivity.
Qed.

(** X9.  No data block is empty.  The loop takes a chunk only while input
    is left, so the encoder never sees an empty chunk from it: in a stream
    returned by [compress_blocked] every data block holds between 1 and
    0xff00 bytes of data (its ISIZE), and none is the 28 bytes of
    [eof_marker], which a reader takes for the end of the stream. *)
Theorem no_empty_data_block (lib : libdeflate) (uninit : nat -> Z)
    (B : list Z) (level : Z) (append_eof : bool) (out : list Z) :
  output_fits lib ->
  result (compress_blocked lib uninit B level append_eof) = Ok (Bytea out) ->
  out = concat (data_blocks lib level B)
        ++ (if append_eof then eof_marker else [])
  /\ Forall (fun b => 1 <= block_ISIZE b <= BGZIP_BLOCK_SIZE /\ b <> eof_marker)
       (data_blocks lib level B).
Proof.
  intros Hfits H.
  pose proof (compress_blocked_level lib uninit B level append_eof _ H) as Hlevel.
  destruct (compress_blocked_returns lib uninit B level append_eof out Hfits Hlevel H)
    as [Eout _].
  split.
  - rewrite Eout. unfold stream_blocks. rewrite concat_app.
    destruct append_eof; [cbn [concat]; rewrite app_nil_r |]; reflexivity.
  - unfold data_blocks.
    destruct (libdeflate_alloc_compressor_ex lib level) as [z |]; [| constructor].
    apply Forall_map.
    eapply Forall_impl; [| apply slices_bounds].
    intros c Hc. cbv beta in Hc.
    assert (Hi : block_ISIZE (bgzf_block lib z c) = len c).
    { rewrite block_ISIZE_bgzf_block. unfold u32. apply Z.mod_small.
      unfold BGZIP_BLOCK_SIZE in Hc. lia. }
    split; [lia |].
    intro E. rewrite E in Hi.
    change (block_ISIZE eof_marker) with 0 in Hi. lia.
Qed.

Lemma no_empty_data_block_witness :
  let out := [31; 139; 8; 4; 0; 0; 0; 0; 0; 255; 6; 0; 66; 67; 2; 0; 33; 0;
              1; 3; 0; 252; 255; 65; 66; 67; 72; 3; 131; 163; 3; 0; 0; 0] in
  out = concat (data_blocks StoredDeflate.api 6 [65; 66; 67]) ++ []
  /\ Forall (fun b => 1 <= block_ISIZE b <= BGZIP_BLOCK_SIZE /\ b <> eof_marker)
       (data_blocks StoredDeflate.api 6 [65; 66; 67]).
Proof.
  apply (no_empty_data_block StoredDeflate.api (fun _ => 0) [65; 66; 67] 6 false).
  - exact StoredDeflateFacts.api_output_fits.
  - vm_compute. reflexivity.
Defined.

(** X10.  The header and the payload of the blocks.  A stream [out]
    returned by [compress_blocked] is cut by a reader, following the BSIZE
    fields found in [out], into blocks whose concatenation is [out]: one
    for each slice of the buffer, and one more for the marker if it was
    asked for.  Every one of them, the marker included, starts with the
    sixteen fixed bytes of [g_magic] (gzip magic, DEFLATE, FEXTRA, no
    time, no flags, unknown system, six bytes of extra field, subfield "BC"
    of two bytes), and the payload of block [i] is what libdeflate wrote
    for slice [i] in the 65510 bytes it was given. *)
Theorem block_header_and_payload (lib : libdeflate) (uninit : nat -> Z)
    (B : list Z) (level : Z) (append_eof : bool) (out : list Z) :
  output_fits lib ->
  result (compress_blocked lib uninit B level append_eof) = Ok (Bytea out) ->
  exists blocks,
    bgzf_split (length out) out = Some blocks
    /\ out = concat blocks
    /\ length blocks
       = (length (slices B) + (if append_eof then 1 else 0))%nat
    /\ Forall (fun b => firstn 16 b
                       = [31; 139; 8; 4; 0; 0; 0; 0; 0; 255; 6; 0; 66; 67; 2; 0])
         blocks
    /\ forall i, (i < length (slices B))%nat ->
         exists z, libdeflate_alloc_compressor_ex lib level = Some z
           /\ block_payload (nth i blocks [])
              = libdeflate_deflate_compress lib z (slice B i)
                  (BGZIP_MAX_BLOCK_SIZE - BLOCK_HEADER_LENGTH - BLOCK_FOOTER_LENGTH).
Proof.
  intros Hfits H.
  pose proof (compress_blocked_level lib uninit B level append_eof _ H) as Hlevel.
  destruct (compress_blocked_returns lib uninit B level append_eof out Hfits Hlevel H)
    as [Eout Hz].
  assert (Hwf : Forall (fun b => block_BSIZE b = len b - 1 /\ 26 <= len b)
                  (stream_blocks lib level B append_eof)).
  { unfold stream_blocks. apply Forall_app. split.
    - unfold data_blocks.
      destruct (libdeflate_alloc_compressor_ex lib level) as [z |]; [| constructor].
      apply data_blocks_well_formed. exact Hfits.
    - destruct append_eof; constructor; [| constructor].
      split; [reflexivity | unfold len; cbn; lia]. }
  assert (Hlen : length (data_blocks lib level B) = length (slices B)).
  { unfold data_blocks. destruct Hz as [-> | (z & Hz & _)].
    - rewrite slices_nil.
      destruct (libdeflate_alloc_compressor_ex lib level); reflexivity.
    - rewrite Hz. apply length_map. }
  exists (stream_blocks lib level B append_eof).
  split; [| split; [exact Eout | split; [| split]]].
  - rewrite Eout. apply bgzf_split_concat; [exact Hwf |].
    apply length_concat_blocks.
    eapply Forall_impl; [| exact Hwf]. intros b [_ Hb]. exact Hb.
  - unfold stream_blocks. rewrite length_app, Hlen.
    destruct append_eof; reflexivity.
  - unfold stream_blocks. apply Forall_app. split.
    + unfold data_blocks.
      destruct (libdeflate_alloc_compressor_ex lib level) as [z |]; [| constructor].
      apply Forall_map, Forall_forall. intros c _.
      rewrite bgzf_block_parts. apply firstn_app_exact. reflexivity.
    + destruct append_eof; constructor; [reflexivity | constructor].
  - intros i Hi. destruct Hz as [-> | (z & Hz & _)].
    + rewrite slices_nil in Hi. cbn [length] in Hi. lia.
    + exists z. split; [exact Hz |].
      unfold stream_blocks. rewrite app_nth1 by (rewrite Hlen; exact Hi).
      unfold data_blocks. rewrite Hz, nth_data_blocks by exact Hi.
      apply block_payload_bgzf_block.
Qed.

Lemma block_header_and_payload_witness :
  let out := concat (stream_blocks StoredDeflate.api 6 [65; 66; 67] true) in
  exists blocks,
    bgzf_split (length out) out = Some blocks
    /\ out = concat blocks
    /\ length blocks = (length (slices [65; 66; 67]%Z) + 1)%nat
    /\ Forall (fun b => firstn 16 b
                       = [31; 139; 8; 4; 0; 0; 0; 0; 0; 255; 6; 0; 66; 67; 2; 0])
         blocks
    /\ forall i, (i < length (slices [65; 66; 67]%Z))%nat ->
         exists z, libdeflate_alloc_compressor_ex StoredDeflate.api 6 = Some z
           /\ block_payload (nth i blocks [])
              = libdeflate_deflate_compress StoredDeflate.api z (slice [65; 66; 67] i)
                  (BGZIP_MAX_BLOCK_SIZE - BLOCK_HEADER_LENGTH - BLOCK_FOOTER_LENGTH).
Proof.
  apply (block_header_and_payload StoredDeflate.api (fun _ => 0) [65; 66; 67] 6 true
           (concat (stream_blocks StoredDeflate.api 6 [65; 66; 67] true))).
  - exact StoredDeflateFacts.api_output_fits.
  - vm_compute. reflexivity.
Defined.

Lemma compress_blocked_bad_level (lib : libdeflate) (uninit : nat -> Z)
    (B : list Z) (level : Z) (e : bool) :
  level < -1 \/ 9 < level ->
  compress_blocked lib uninit B level e
  = ([Elog ERROR (Invalid_compression_level level)],
     Raised (Invalid_compression_level level)).
Proof.
  intro H. unfold compress_blocked, pg_bgzip_compress.
  cbn [nargs arg0 arg1 arg2].
  change (negb (3 =? 2) && negb (3 =? 3)) with false. cbv iota.
  assert (E : (level <? -1) || (level >? 9) = true).
  { apply orb_true_iff.
    destruct H; [left; apply Z.ltb_lt | right; apply Z.gtb_lt]; lia. }
  rewrite E. reflexivity.
Qed.

Lemma compress_gzip_bad_level (lib : libdeflate) (uninit : nat -> Z)
    (B : list Z) (level : Z) :
  level < -1 \/ 9 < level ->
  compress_gzip lib uninit B level
  = ([Elog ERROR (Invalid_compression_level level)],
     Raised (Invalid_compression_level level)).
Proof.
  intro H. unfold compress_gzip, pg_bgzip_gzip_compress. cbn [arg0 arg1].
  assert (E : (level <? -1) || (level >? 9) = true).
  { apply orb_true_iff.
    destruct H; [left; apply Z.ltb_lt | right; apply Z.gtb_lt]; lia. }
  rewrite E. reflexivity.
Qed.

Lemma level_cases (level : Z) : (level < -1 \/ 9 < level) \/ -1 <= level <= 9.
Proof. lia. Qed.

(** X11.  Nothing of the memory the allocator hands out gets into the
    result of the block path: for a libdeflate that keeps to the room it
    is given, what [compress_blocked] returns or raises is the same
    whatever the bytes of fresh memory are. *)
Theorem compress_blocked_ignores_fresh_memory (lib : libdeflate)
    (uninit uninit' : nat -> Z) (B : list Z) (level : Z) (append_eof : bool) :
  output_fits lib ->
  result (compress_blocked lib uninit B level append_eof)
  = result (compress_blocked lib uninit' B level append_eof).
Proof.
  intro Hfits. destruct (level_cases level) as [Hbad | Hlevel].
  - rewrite !compress_blocked_bad_level by exact Hbad. reflexivity.
  - rewrite !compress_blocked_result by assumption. reflexivity.
Qed.

Lemma compress_blocked_ignores_fresh_memory_witness :
  result (compress_blocked StoredDeflate.api (fun _ => 0) [65; 66; 67] 6 true)
  = result (compress_blocked StoredDeflate.api (fun i => Z.of_nat i) [65; 66; 67] 6 true).
Proof.
  apply (compress_blocked_ignores_fresh_memory StoredDeflate.api).
  exact StoredDeflateFacts.api_output_fits.
Defined.

Lemma M_eta {A : Type} (m : M A) : m = (trace m, result m).
Proof. destruct m. reflexivity. Qed.

(** X13.  The whole-buffer path when libdeflate succeeds.  With a level
    between -1 and 9, a compressor, and output that is not empty and
    within the room given, the call allocates the buffer, asks for the
    compressor, compresses once into [len B + 18 + 8] bytes, frees the
    compressor, does not release the buffer, and returns exactly the bytes
    libdeflate wrote. *)
Theorem compress_gzip_success (lib : libdeflate) (uninit : nat -> Z)
    (B : list Z) (level : Z) (z : compressor lib) :
  -1 <= level <= 9 ->
  libdeflate_alloc_compressor_ex lib level = Some z ->
  let room := len B + BLOCK_HEADER_LENGTH + BLOCK_FOOTER_LENGTH in
  let written := libdeflate_gzip_compress lib z B room in
  written <> [] -> len written <= room ->
  compress_gzip lib uninit B level
  = ([Epalloc (room + VARHDRSZ); Ealloc_compressor level;
      Egzip_compress (len B) room; Efree_compressor],
     Ok (Bytea written)).
Proof.
  intros Hlevel Hz room written Hne Hfit.
  rewrite (M_eta (compress_gzip lib uninit B level)). f_equal.
  - unfold compress_gzip, pg_bgzip_gzip_compress. cbn [arg0 arg1].
    rewrite (level_accepted level Hlevel), Hz. fold room. fold written.
    assert (Hpos : (len written <=? 0) = false).
    { apply Z.leb_gt. pose proof (len_nonneg written).
      assert (len written <> 0) by (rewrite len_nil_iff; exact Hne). lia. }
    rewrite Hpos. reflexivity.
  - apply (compress_gzip_returns lib uninit B level z); assumption.
Qed.

Lemma compress_gzip_success_witness :
  compress_gzip StoredDeflate.api (fun _ => 0) [65; 66; 67] 6
  = ([Epalloc (29 + VARHDRSZ); Ealloc_compressor 6;
      Egzip_compress (len [65; 66; 67]) 29; Efree_compressor],
     Ok (Bytea [31; 139; 8; 0; 0; 0; 0; 0; 0; 255;
                1; 3; 0; 252; 255; 65; 66; 67;
                72; 3; 131; 163; 3; 0; 0; 0])).
Proof.
  apply (compress_gzip_success StoredDeflate.api (fun _ => 0) [65; 66; 67] 6 6).
  - lia.
  - reflexivity.
  - vm_compute. discriminate.
  - vm_compute. discriminate.
Defined.

(** X12.  Nothing of the memory the allocator hands out gets into the
    result of the whole-buffer path either, for a libdeflate whose gzip
    compression keeps to the room it is given. *)
Theorem compress_gzip_ignores_fresh_memory (lib : libdeflate)
    (uninit uninit' : nat -> Z) (B : list Z) (level : Z) :
  gzip_output_fits lib ->
  result (compress_gzip lib uninit B level)
  = result (compress_gzip lib uninit' B level).
Proof.
  intro Hfits. destruct (level_cases level) as [Hbad | Hlevel].
  - rewrite !compress_gzip_bad_level by exact Hbad. reflexivity.
  - destruct (libdeflate_alloc_compressor_ex lib level) as [z |] eqn:Hz.
    + set (room := len B + BLOCK_HEADER_LENGTH + BLOCK_FOOTER_LENGTH).
      destruct (libdeflate_gzip_compress lib z B room) as [| w0 w] eqn:Hw.
      * unfold compress_gzip, pg_bgzip_gzip_compress. cbn [arg0 arg1].
        rewrite (level_accepted level Hlevel), Hz. fold room. rewrite Hw.
        reflexivity.
      * assert (Hroom : 0 <= room).
        { unfold room, BLOCK_HEADER_LENGTH, BLOCK_FOOTER_LENGTH.
          pose proof (len_nonneg B). lia. }
        pose proof (Hfits z B room Hroom) as Hfit.
        rewrite !(compress_gzip_returns lib _ B level z Hlevel Hz);
          fold room; try (rewrite Hw; discriminate); try exact Hfit.
        reflexivity.
    + unfold compress_gzip, pg_bgzip_gzip_compress. cbn [arg0 arg1].
      rewrite (level_accepted level Hlevel), Hz. reflexivity.
Qed.

Lemma stored_gzip_output_fits : gzip_output_fits StoredDeflate.api.
Proof.
  intros z src avail Ha. cbn [StoredDeflate.api libdeflate_gzip_compress].
  unfold StoredDeflate.gzip_compress.
  destruct (Z.leb_spec avail 18) as [Hs | Hs]; [exact Ha |].
  pose proof (StoredDeflateFacts.api_output_fits z src (avail - 18)) as Hd.
  cbn [StoredDeflate.api libdeflate_deflate_compress] in Hd.
  destruct (StoredDeflate.deflate_compress z src (avail - 18)) as [| d0 d];
    [exact Ha |].
  unfold len in *. rewrite !length_app, !length_le_bytes.
  change (length StoredDeflate.gzip_header) with 10%nat. lia.
Qed.

Lemma compress_gzip_ignores_fresh_memory_witness :
  result (compress_gzip StoredDeflate.api (fun _ => 0) [65; 66; 67] 6)
  = result (compress_gzip StoredDeflate.api (fun i => Z.of_nat i) [65; 66; 67] 6).
Proof.
  apply (compress_gzip_ignores_fresh_memory StoredDeflate.api).
  exact stored_gzip_output_fits.
Defined.

(** X14.  The levels taken are exactly those from -1 to 9, at both entry
    points alike: the error of an invalid level is raised for the levels
    below -1 and above 9 and for no other, so that 10, 11 and 12 are
    refused and -1 is not. *)
Theorem level_check_is_exact (lib : libdeflate) (uninit : nat -> Z)
    (B : list Z) (level : Z) (append_eof : bool) :
  (result (compress_blocked lib uninit B level append_eof)
   = Raised (Invalid_compression_level level)
   <-> level < -1 \/ 9 < level)
  /\ (result (compress_gzip lib uninit B level)
      = Raised (Invalid_compression_level level)
      <-> level < -1 \/ 9 < level).
Proof.
  split; split.
  - intro H. destruct (level_cases level) as [Hbad | Hlevel]; [exact Hbad |].
    destruct (pg_bgzip_compress_raises lib uninit
                {| nargs := 3; arg0 := Some B; arg1 := Some level;
                   arg2 := Some append_eof |}
                B level _ (or_intror eq_refl) eq_refl eq_refl Hlevel H)
      as (p & Hp).
    discriminate.
  - intro Hbad. rewrite compress_blocked_bad_level by exact Hbad. reflexivity.
  - intro H. destruct (level_cases level) as [Hbad | Hlevel]; [exact Hbad |].
    exfalso. revert H.
    unfold compress_gzip, pg_bgzip_gzip_compress. cbn [arg0 arg1].
    rewrite (level_accepted level Hlevel), !result_emit_bind.
    destruct (libdeflate_alloc_compressor_ex lib level) as [z |]; [| discriminate].
    rewrite result_emit_bind.
    destruct (len _ <=? 0).
    + rewrite result_elog_bind. discriminate.
    + rewrite result_emit_bind. discriminate.
  - intro Hbad. rewrite compress_gzip_bad_level by exact Hbad. reflexivity.
Qed.

(** X20.  Nothing to compress and the marker asked for: at any level from
    -1 to 9 and with any libdeflate, the result is exactly the 28 bytes of
    [eof_marker]; libdeflate is not called. *)
Theorem empty_buffer_with_marker (lib : libdeflate) (uninit : nat -> Z)
    (level : Z) :
  -1 <= level <= 9 ->
  compress_blocked lib uninit [] level true
  = ([Epalloc VARHDRSZ; Elog NOTICE Compress_with_EOF;
      Erepalloc (28 + VARHDRSZ)],
     Ok (Bytea eof_marker)).
Proof.
  intro Hl. unfold compress_blocked, pg_bgzip_compress.
  cbn [nargs arg0 arg1 arg2].
  change (negb (3 =? 2) && negb (3 =? 3)) with false. cbv iota.
  rewrite (level_accepted level Hl). reflexivity.
Qed.

Lemma empty_buffer_with_marker_witness :
  compress_blocked StoredDeflate.api (fun i => Z.of_nat i) [] (-1) true
  = ([Epalloc VARHDRSZ; Elog NOTICE Compress_with_EOF;
      Erepalloc (28 + VARHDRSZ)],
     Ok (Bytea eof_marker)).
Proof.
  apply (empty_buffer_with_marker StoredDeflate.api (fun i => Z.of_nat i) (-1)).
  lia.
Defined.

(** ** Streams put together *)

Lemma slices_app (k : nat) :
  forall B1 B2 : list Z,
  length B1 = (k * Z.to_nat BGZIP_BLOCK_SIZE)%nat ->
  slices (B1 ++ B2) = slices B1 ++ slices B2.
Proof.
  induction k as [| k IH]; intros B1 B2 HL.
  - destruct B1; [reflexivity | cbn [length Nat.mul] in HL; discriminate].
  - assert (Hbs : (0 < Z.to_nat BGZIP_BLOCK_SIZE)%nat)
      by (unfold BGZIP_BLOCK_SIZE; lia).
    assert (Hlen : (Z.to_nat BGZIP_BLOCK_SIZE <= length B1)%nat).
    { rewrite HL. cbn [Nat.mul]. lia. }
    assert (Hne : B1 <> []).
    { intro E. rewrite E in Hlen. cbn [length] in Hlen. lia. }
    assert (Hne' : B1 ++ B2 <> []).
    { destruct B1; [congruence | discriminate]. }
    rewrite (slices_cons (B1 ++ B2)) by exact Hne'.
    rewrite (slices_cons B1) by exact Hne.
    rewrite firstn_app, skipn_app.
    replace (Z.to_nat BGZIP_BLOCK_SIZE - length B1)%nat with 0%nat by lia.
    rewrite firstn_O, skipn_O, app_nil_r.
    rewrite IH.
    + reflexivity.
    + rewrite length_skipn, HL. cbn [Nat.mul]. lia.
Qed.

(** X15.  Streams of whole blocks can be put end to end.  For a libdeflate
    that keeps to the room it is given: when the length of [B1] is a
    multiple of 0xff00 and [compress_blocked] returns [o1] for [B1]
    without the marker and [o2] for [B2], it returns [o1 ++ o2] for
    [B1 ++ B2]: a block does not depend on the blocks before it. *)
Theorem streams_concatenate (lib : libdeflate) (uninit : nat -> Z)
    (B1 B2 : list Z) (level : Z) (append_eof : bool) (o1 o2 : list Z)
    (k : nat) :
  output_fits lib ->
  len B1 = Z.of_nat k * BGZIP_BLOCK_SIZE ->
  result (compress_blocked lib uninit B1 level false) = Ok (Bytea o1) ->
  result (compress_blocked lib uninit B2 level append_eof) = Ok (Bytea o2) ->
  result (compress_blocked lib uninit (B1 ++ B2) level append_eof)
  = Ok (Bytea (o1 ++ o2)).
Proof.
  intros Hfits HL H1 H2.
  pose proof (compress_blocked_level lib uninit B1 level false _ H1) as Hlevel.
  destruct (compress_blocked_returns lib uninit B1 level false o1 Hfits Hlevel H1)
    as [E1 Hz1].
  destruct (compress_blocked_returns lib uninit B2 level append_eof o2 Hfits Hlevel H2)
    as [E2 Hz2].
  assert (HL' : length B1 = (k * Z.to_nat BGZIP_BLOCK_SIZE)%nat).
  { unfold len in HL. unfold BGZIP_BLOCK_SIZE in *. lia. }
  rewrite compress_blocked_result by assumption.
  unfold stream_blocks, data_blocks in E1, E2.
  destruct (libdeflate_alloc_compressor_ex lib level) as [z |] eqn:Hz.
  - assert (F1 : Forall (fun c => payload_of lib z c <> []) (slices B1)).
    { destruct Hz1 as [-> | (z' & Hz' & F)]; [rewrite slices_nil; constructor |].
      assert (z' = z) by congruence. subst z'. exact F. }
    assert (F2 : Forall (fun c => payload_of lib z c <> []) (slices B2)).
    { destruct Hz2 as [-> | (z' & Hz' & F)]; [rewrite slices_nil; constructor |].
      assert (z' = z) by congruence. subst z'. exact F. }
    rewrite (@emitted_blocks_total lib (length (B1 ++ B2)) level (B1 ++ B2) z
               (Nat.le_refl _) Hz).
    + rewrite chunks_slices by lia.
      rewrite (slices_app k B1 B2 HL'), map_app, concat_app.
      assert (Ee : concat (if append_eof then [eof_marker] else [])
                   = if append_eof then eof_marker else []).
      { destruct append_eof; [apply app_nil_r | reflexivity]. }
      rewrite E1, E2, app_nil_r, concat_app, Ee, <- app_assoc.
      reflexivity.
    + rewrite chunks_slices by lia.
      rewrite (slices_app k B1 B2 HL'). apply Forall_app. split; assumption.
  - assert (N1 : B1 = []).
    { destruct Hz1 as [-> | (z' & Hz' & _)]; [reflexivity | discriminate]. }
    assert (N2 : B2 = []).
    { destruct Hz2 as [-> | (z' & Hz' & _)]; [reflexivity | discriminate]. }
    subst B1 B2. cbn [app length emitted_blocks].
    rewrite E1, E2. destruct append_eof; reflexivity.
Qed.

Lemma streams_concatenate_witness :
  let B1 := repeat 65 (Z.to_nat 0xff00) in
  let B2 := [66; 67] in
  result (compress_blocked StoredDeflate.api (fun _ => 0) (B1 ++ B2) 6 true)
  = Ok (Bytea (concat (stream_blocks StoredDeflate.api 6 B1 false)
               ++ concat (stream_blocks StoredDeflate.api 6 B2 true))).
Proof.
  apply (streams_concatenate StoredDeflate.api (fun _ => 0)
           (repeat 65 (Z.to_nat 0xff00)) [66; 67] 6 true _ _ 1).
  - exact StoredDeflateFacts.api_output_fits.
  - vm_compute. reflexivity.
  - apply (compress_blocked_total StoredDeflate.api (fun _ => 0) _ 6 false 6).
    + exact StoredDeflateFacts.api_output_fits.
    + exact StoredDeflateFacts.api_chunk_fits.
    + lia.
    + reflexivity.
  - vm_compute. reflexivity.
Defined.

(** Two full chunks and one byte, in two parts and at once. *)
Example streams_concatenate_run :
  let B1 := repeat 65 (Z.to_nat (2 * 0xff00)) in
  let B2 := [66] in
  match result (compress_blocked StoredDeflate.api (fun _ => 0) B1 6 false),
        result (compress_blocked StoredDeflate.api (fun _ => 0) B2 6 true),
        result (compress_blocked StoredDeflate.api (fun _ => 0) (B1 ++ B2) 6 true)
  with
  | Ok (Bytea o1), Ok (Bytea o2), Ok (Bytea o) => bytes_eqb o (o1 ++ o2) = true
  | _, _, _ => False
  end.
Proof. vm_compute. reflexivity. Qed.

(** ** The size of a stream *)

Lemma len_concat_bounds (lo hi : Z) (bl : list (list Z)) :
  Forall (fun b => lo <= len b <= hi) bl ->
  lo * len bl <= len (concat bl) <= hi * len bl.
Proof.
  induction 1 as [| b bl Hb HF IH].
  - change (len (@nil (list Z))) with 0. change (len (concat [])) with 0. lia.
  - cbn [concat]. rewrite len_app.
    assert (E : len (b :: bl) = 1 + len bl) by (unfold len; cbn [length]; lia).
    rewrite E. lia.
Qed.

(** X16.  The size of the output.  For a libdeflate that keeps to the room
    it is given, a stream returned for [n = ceil (len B / 0xff00)] chunks
    has between [27 n] and [0x10000 n] bytes, and 28 more with the
    marker. *)
Theorem output_size (lib : libdeflate) (uninit : nat -> Z) (B : list Z)
    (level : Z) (append_eof : bool) (out : list Z) :
  output_fits lib ->
  result (compress_blocked lib uninit B level append_eof) = Ok (Bytea out) ->
  let n := ceil_div (len B) BGZIP_BLOCK_SIZE in
  let marker := if append_eof then 28 else 0 in
  27 * n + marker <= len out <= BGZIP_MAX_BLOCK_SIZE * n + marker.
Proof.
  intros Hfits H.
  pose proof (compress_blocked_level lib uninit B level append_eof _ H) as Hlevel.
  destruct (compress_blocked_returns lib uninit B level append_eof out Hfits Hlevel H)
    as [Eout Hz].
  cbv zeta.
  assert (Em : len out = len (concat (data_blocks lib level B))
                         + (if append_eof then 28 else 0)).
  { rewrite Eout. unfold stream_blocks. rewrite concat_app, len_app.
    destruct append_eof; reflexivity. }
  rewrite Em.
  assert (Hb : 27 * len (data_blocks lib level B)
               <= len (concat (data_blocks lib level B))
               <= BGZIP_MAX_BLOCK_SIZE * len (data_blocks lib level B)).
  { apply len_concat_bounds. unfold data_blocks.
    destruct Hz as [-> | (z & Hz & HF)].
    - rewrite slices_nil.
      destruct (libdeflate_alloc_compressor_ex lib level); constructor.
    - rewrite Hz. apply Forall_map.
      eapply Forall_impl; [| exact HF].
      intros c Hc. cbv beta in Hc. rewrite len_bgzf_block.
      assert (Hp : len (payload_of lib z c)
                   <= BGZIP_MAX_BLOCK_SIZE - BLOCK_HEADER_LENGTH - BLOCK_FOOTER_LENGTH).
      { apply Hfits. unfold BGZIP_MAX_BLOCK_SIZE, BLOCK_HEADER_LENGTH,
          BLOCK_FOOTER_LENGTH. lia. }
      pose proof (len_nonneg (payload_of lib z c)).
      assert (len (payload_of lib z c) <> 0) by (rewrite len_nil_iff; exact Hc).
      unfold BGZIP_MAX_BLOCK_SIZE, BLOCK_HEADER_LENGTH, BLOCK_FOOTER_LENGTH in *.
      lia. }
  assert (En : len (data_blocks lib level B) = ceil_div (len B) BGZIP_BLOCK_SIZE).
  { unfold data_blocks. destruct Hz as [-> | (z & Hz & _)].
    - rewrite slices_nil.
      destruct (libdeflate_alloc_compressor_ex lib level); reflexivity.
    - rewrite Hz. unfold len at 1. rewrite length_map, length_slices.
      apply Z2Nat.id, ceil_div_nonneg, len_nonneg. }
  rewrite En in Hb. lia.
Qed.

Lemma output_size_witness :
  27 * ceil_div (len [65; 66; 67]) BGZIP_BLOCK_SIZE + 28
  <= len (concat (stream_blocks StoredDeflate.api 6 [65; 66; 67] true))
  <= BGZIP_MAX_BLOCK_SIZE * ceil_div (len [65; 66; 67]) BGZIP_BLOCK_SIZE + 28.
Proof.
  apply (output_size StoredDeflate.api (fun _ => 0) [65; 66; 67] 6 true).
  - exact StoredDeflateFacts.api_output_fits.
  - vm_compute. reflexivity.
Defined.

(** ** The calls made *)

Lemma chunk_of_pass (inp : list Z) :
  (len inp >? 0) = true ->
  let isize := if len inp <? BGZIP_BLOCK_SIZE then len inp else BGZIP_BLOCK_SIZE in
  firstn (Z.to_nat isize) inp <> []
  /\ 0 < len (firstn (Z.to_nat isize) inp) <= BGZIP_BLOCK_SIZE
  /\ (length (skipn (Z.to_nat isize) inp) < length inp)%nat.
Proof.
  intro Hpos. apply Z.gtb_lt in Hpos. cbv zeta.
  destruct (isize_chunk inp) as [Hf Hs]. rewrite Hf, Hs.
  assert (Hl : 0 < len (firstn (Z.to_nat BGZIP_BLOCK_SIZE) inp) <= BGZIP_BLOCK_SIZE).
  { unfold len in *. rewrite length_firstn. unfold BGZIP_BLOCK_SIZE. lia. }
  split; [| split].
  - intro E. rewrite E in Hl. change (len (@nil Z)) with 0 in Hl. lia.
  - exact Hl.
  - rewrite length_skipn. unfold len in Hpos. unfold BGZIP_BLOCK_SIZE. lia.
Qed.

(** The calls of the encoder on a chunk that is not empty. *)
Lemma encoder_trace (lib : libdeflate) (dst : list Z) (dlen : Z)
    (src : list Z) (level : Z) :
  src <> [] ->
  trace (bgzip_compress_block lib dst dlen src level)
  = Ealloc_compressor level
    :: match libdeflate_alloc_compressor_ex lib level with
       | None => []
       | Some z =>
           let avail := size_t (dlen - BLOCK_HEADER_LENGTH - BLOCK_FOOTER_LENGTH) in
           Edeflate_compress (len src) avail
           :: (if len (libdeflate_deflate_compress lib z src avail) <=? 0
               then [Elog WARNING Deflate_compress_failed; Efree_compressor]
               else [Efree_compressor; Ecrc32 (len src)])
       end.
Proof.
  intro Hsrc.
  assert (Hslen : (len src =? 0) = false)
    by (apply Z.eqb_neq; rewrite len_nil_iff; exact Hsrc).
  unfold bgzip_compress_block. rewrite Hslen.
  destruct (libdeflate_alloc_compressor_ex lib level) as [z |]; [| reflexivity].
  cbv zeta.
  destruct (len (libdeflate_deflate_compress lib z src _) <=? 0); reflexivity.
Qed.

Section LoopTrace.

Variable lib : libdeflate.
Variable uninit : nat -> Z.
Variable level : Z.

(** A property of traces that holds of no call, of one after the other
    when it holds of each, and of what one pass of the loop does. *)
Variable Q : list event -> Prop.
Hypothesis Q_nil : Q [].
Hypothesis Q_app : forall a b, Q a -> Q b -> Q (a ++ b).
Hypothesis Q_repalloc : forall size, Q [Erepalloc size].
Hypothesis Q_encoder : forall dst src,
  src <> [] -> 0 < len src <= BGZIP_BLOCK_SIZE ->
  Q (trace (bgzip_compress_block lib dst BGZIP_MAX_BLOCK_SIZE src level)).
Hypothesis Q_error : forall p,
  Q [Elog ERROR (Error_compressing_the_block_at_position p)].

Lemma compress_loop_trace (budget : nat) :
  forall (inp compressed : list Z) (compressed_size : Z),
  Q (trace (compress_loop lib uninit budget level inp compressed compressed_size)).
Proof.
  induction budget as [| budget IH]; intros inp compressed csize.
  - cbn [compress_loop]. destruct (len inp >? 0); exact Q_nil.
  - cbn [compress_loop]. destruct (len inp >? 0) eqn:Hpos; [| exact Q_nil].
    destruct (chunk_of_pass inp Hpos) as (Hne & Hlen & _).
    rewrite trace_bind. apply Q_app; [apply Q_repalloc |].
    change (result (emit (Erepalloc (csize + BGZIP_MAX_BLOCK_SIZE + VARHDRSZ))))
      with (Ok tt).
    cbv beta iota. rewrite trace_bind. apply Q_app.
    + apply Q_encoder; assumption.
    + match goal with
      | |- context [result (bgzip_compress_block ?l ?d ?n ?s ?v)] =>
          destruct (bgzip_compress_block_never_raises l d n s v)
            as ([[rc dst] dlen] & Hr)
      end.
      rewrite Hr. cbv beta iota. rewrite trace_bind.
      destruct (rc =? 0).
      * change (trace (ret tt)) with (@nil event).
        change (result (ret tt)) with (Ok tt). cbv beta iota.
        cbn [app]. apply IH.
      * apply Q_app; [apply Q_error | exact Q_nil].
Qed.

Hypothesis Q_palloc : Q [Epalloc VARHDRSZ].
Hypothesis Q_marker : forall size,
  Q [Elog NOTICE Compress_with_EOF; Erepalloc size].
Hypothesis Q_level : Q [Elog ERROR (Invalid_compression_level level)].

Lemma compress_blocked_trace (B : list Z) (e : bool) :
  Q (trace (compress_blocked lib uninit B level e)).
Proof.
  destruct (level_cases level) as [Hbad | Hlevel].
  - rewrite compress_blocked_bad_level by exact Hbad. exact Q_level.
  - unfold compress_blocked, pg_bgzip_compress. cbn [nargs arg0 arg1 arg2].
    change (negb (3 =? 2) && negb (3 =? 3)) with false. cbv iota.
    rewrite (level_accepted level Hlevel).
    rewrite trace_bind. apply Q_app; [exact Q_palloc |].
    change (result (emit (Epalloc VARHDRSZ))) with (Ok tt). cbv beta iota.
    rewrite trace_bind. apply Q_app; [apply compress_loop_trace |].
    destruct (result (compress_loop lib uninit (length B) level B
                        (palloc uninit VARHDRSZ) 0)) as [[c n] | m |];
      try exact Q_nil.
    rewrite trace_bind. change (3 =? 3) with true. cbv iota.
    destruct e.
    + apply Q_app; [apply Q_marker | exact Q_nil].
    + apply Q_app; exact Q_nil.
Qed.

End LoopTrace.

Lemma count_events_app (p : event -> bool) (a b : list event) :
  count_events p (a ++ b) = (count_events p a + count_events p b)%nat.
Proof. unfold count_events. rewrite filter_app, length_app. reflexivity. Qed.

(** X18.  No compressor is left behind.  In every call of either entry
    point, whether it returns or raises, libdeflate is asked to free a
    compressor as many times as it has handed one out: once for each
    request when it has a compressor at the level, never when it has
    none. *)
Theorem compressors_are_freed (lib : libdeflate) (uninit : nat -> Z)
    (B : list Z) (level : Z) (append_eof : bool) :
  let balanced (t : list event) :=
    count_events is_free_compressor t
    = match libdeflate_alloc_compressor_ex lib level with
      | Some _ => count_events is_alloc_compressor t
      | None => 0%nat
      end in
  balanced (trace (compress_blocked lib uninit B level append_eof))
  /\ balanced (trace (compress_gzip lib uninit B level)).
Proof.
  cbv zeta. split.
  - apply (compress_blocked_trace lib uninit level
             (fun t => count_events is_free_compressor t
                       = match libdeflate_alloc_compressor_ex lib level with
                         | Some _ => count_events is_alloc_compressor t
                         | None => 0%nat
                         end)).
    + destruct (libdeflate_alloc_compressor_ex lib level); reflexivity.
    + intros a b Ha Hb. rewrite !count_events_app, Ha, Hb.
      destruct (libdeflate_alloc_compressor_ex lib level); reflexivity.
    + intro size. destruct (libdeflate_alloc_compressor_ex lib level); reflexivity.
    + intros dst src Hsrc _. rewrite encoder_trace by exact Hsrc.
      destruct (libdeflate_alloc_compressor_ex lib level) as [z |]; [| reflexivity].
      cbv zeta.
      destruct (len (libdeflate_deflate_compress lib z src _) <=? 0); reflexivity.
    + intro p. destruct (libdeflate_alloc_compressor_ex lib level); reflexivity.
    + destruct (libdeflate_alloc_compressor_ex lib level); reflexivity.
    + intro size. destruct (libdeflate_alloc_compressor_ex lib level); reflexivity.
    + destruct (libdeflate_alloc_compressor_ex lib level); reflexivity.
  - destruct (level_cases level) as [Hbad | Hlevel].
    + rewrite compress_gzip_bad_level by exact Hbad.
      destruct (libdeflate_alloc_compressor_ex lib level); reflexivity.
    + unfold compress_gzip, pg_bgzip_gzip_compress. cbn [arg0 arg1].
      rewrite (level_accepted level Hlevel).
      destruct (libdeflate_alloc_compressor_ex lib level) as [z |]; [| reflexivity].
      destruct (len (libdeflate_gzip_compress lib z B _) <=? 0); reflexivity.
Qed.

(** X19.  What the block path asks of libdeflate and of the allocator.  In
    every call of [compress_blocked], whatever the arguments and whatever
    libdeflate does, each request to deflate is for a chunk of between 1
    and 0xff00 bytes with 65510 bytes of room, each CRC-32 is of such a
    chunk, and neither [pfree] nor the gzip compression is called. *)
Theorem block_path_calls (lib : libdeflate) (uninit : nat -> Z) (B : list Z)
    (level : Z) (append_eof : bool) :
  Forall block_path_event (trace (compress_blocked lib uninit B level append_eof)).
Proof.
  apply (compress_blocked_trace lib uninit level (Forall block_path_event)).
  - constructor.
  - intros a b Ha Hb. apply Forall_app. split; assumption.
  - intro size. repeat constructor.
  - intros dst src Hsrc Hlen. rewrite encoder_trace by exact Hsrc.
    constructor; [exact I |].
    destruct (libdeflate_alloc_compressor_ex lib level) as [z |]; [| constructor].
    cbv zeta. constructor.
    + split; [exact Hlen | reflexivity].
    + destruct (len (libdeflate_deflate_compress lib z src _) <=? 0);
        repeat constructor; apply Hlen.
  - intro p. repeat constructor.
  - repeat constructor.
  - intro size. repeat constructor.
  - repeat constructor.
Qed.

(** ** The loop ends *)

Lemma compress_loop_ends (lib : libdeflate) (uninit : nat -> Z)
    (level : Z) (budget : nat) :
  forall (inp compressed : list Z) (compressed_size : Z),
  (length inp <= budget)%nat ->
  result (compress_loop lib uninit budget level inp compressed compressed_size)
  <> Unfinished.
Proof.
  induction budget as [| budget IH]; intros inp compressed csize Hl.
  - cbn [compress_loop].
    assert (E : (len inp >? 0) = false).
    { destruct inp; [reflexivity | cbn [length] in Hl; lia]. }
    rewrite E. discriminate.
  - cbn [compress_loop]. destruct (len inp >? 0) eqn:Hpos; [| discriminate].
    destruct (chunk_of_pass inp Hpos) as (_ & _ & Hless).
    rewrite result_emit_bind, result_bind.
    match goal with
    | |- context [result (bgzip_compress_block ?l ?d ?n ?s ?v)] =>
        destruct (bgzip_compress_block_never_raises l d n s v)
          as ([[rc dst] dlen] & Hr)
    end.
    rewrite Hr. cbv beta iota. rewrite result_bind.
    destruct (rc =? 0).
    + change (result (ret tt)) with (Ok tt). cbv beta iota.
      apply IH. lia.
    + discriminate.
Qed.

(** X17.  The loop of [pg_bgzip_compress] ends.  Each pass takes at least
    one byte of the input, so one pass per byte is budget enough: whatever
    the arguments and whatever libdeflate does, the call returns or
    raises. *)
Theorem pg_bgzip_compress_ends (lib : libdeflate) (uninit : nat -> Z)
    (fcinfo : FunctionCallInfo) :
  result (pg_bgzip_compress lib uninit fcinfo) <> Unfinished.
Proof.
  unfold pg_bgzip_compress.
  destruct (negb (nargs fcinfo =? 2) && negb (nargs fcinfo =? 3)); [discriminate |].
  destruct (arg0 fcinfo) as [B |]; [| discriminate].
  destruct (arg1 fcinfo) as [l |]; [| discriminate].
  destruct ((l <? -1) || (l >? 9)); [discriminate |].
  rewrite result_emit_bind, result_bind.
  pose proof (compress_loop_ends lib uninit l (length B) B
                (palloc uninit VARHDRSZ) 0 (Nat.le_refl _)) as Hends.
  destruct (result (compress_loop lib uninit (length B) l B
                      (palloc uninit VARHDRSZ) 0)) as [[c n] | m |];
    [| discriminate | congruence].
  rewrite result_bind.
  destruct (if nargs fcinfo =? 3 then _ else false).
  - rewrite result_elog_bind, result_emit_bind. discriminate.
  - discriminate.
Qed.

(** ** SQL NULL as a result *)

(** X21.  Which entry point returns SQL NULL.  [pg_bgzip_compress] never
    does, whatever its arguments: it returns a [bytea] or raises.
    [pg_bgzip_gzip_compress], with a buffer and a level between -1 and 9,
    returns SQL NULL exactly when libdeflate has no compressor at the level
    or writes nothing, and a [bytea] otherwise. *)
Theorem null_results (lib : libdeflate) (uninit : nat -> Z) :
  (forall fcinfo, result (pg_bgzip_compress lib uninit fcinfo) <> Ok Null)
  /\ (forall (B : list Z) (level : Z),
        -1 <= level <= 9 ->
        (result (compress_gzip lib uninit B level) = Ok Null
         <-> (libdeflate_alloc_compressor_ex lib level = None
              \/ exists z, libdeflate_alloc_compressor_ex lib level = Some z
                   /\ libdeflate_gzip_compress lib z B
                        (len B + BLOCK_HEADER_LENGTH + BLOCK_FOOTER_LENGTH) = []))
        /\ exists d, result (compress_gzip lib uninit B level) = Ok d).
Proof.
  split.
  - intro fcinfo. unfold pg_bgzip_compress.
    destruct (negb (nargs fcinfo =? 2) && negb (nargs fcinfo =? 3)); [discriminate |].
    destruct (arg0 fcinfo) as [B |]; [| discriminate].
    destruct (arg1 fcinfo) as [l |]; [| discriminate].
    destruct ((l <? -1) || (l >? 9)); [discriminate |].
    rewrite result_emit_bind, result_bind.
    destruct (result (compress_loop lib uninit (length B) l B
                        (palloc uninit VARHDRSZ) 0)) as [[c n] | m |];
      try discriminate.
    rewrite result_bind.
    destruct (if nargs fcinfo =? 3 then _ else false).
    + rewrite result_elog_bind, result_emit_bind. discriminate.
    + discriminate.
  - intros B level Hlevel.
    unfold compress_gzip, pg_bgzip_gzip_compress. cbn [arg0 arg1].
    rewrite (level_accepted level Hlevel), !result_emit_bind.
    destruct (libdeflate_alloc_compressor_ex lib level) as [z |] eqn:Hz.
    + rewrite result_emit_bind.
      set (written := libdeflate_gzip_compress lib z B _).
      destruct (Z.leb_spec (len written) 0) as [Hw | Hw].
      * rewrite result_elog_bind.
        assert (E : written = []).
        { apply len_nil_iff. pose proof (len_nonneg written). lia. }
        split; [| eexists; reflexivity].
        split; [| reflexivity].
        intros _. right. exists z. split; [reflexivity | exact E].
      * rewrite result_emit_bind.
        split; [| eexists; reflexivity].
        split; [discriminate |].
        intros [Hn | (z' & Hz' & E)]; [discriminate |].
        assert (z' = z) by congruence. subst z'.
        fold written in E. rewrite E in Hw. change (len (@nil Z)) with 0 in Hw. lia.
    + split; [| eexists; reflexivity].
      split; [| reflexivity].
      intros _. left. reflexivity.
Qed.

Lemma null_results_witness :
  (result (compress_gzip StoredDeflate.api (fun _ => 0) [65] (-1)) = Ok Null
   <-> (libdeflate_alloc_compressor_ex StoredDeflate.api (-1) = None
        \/ exists z, libdeflate_alloc_compressor_ex StoredDeflate.api (-1) = Some z
             /\ libdeflate_gzip_compress StoredDeflate.api z [65]
                  (len [65] + BLOCK_HEADER_LENGTH + BLOCK_FOOTER_LENGTH) = []))
  /\ exists d, result (compress_gzip StoredDeflate.api (fun _ => 0) [65] (-1)) = Ok d.
Proof.
  apply (proj2 (null_results StoredDeflate.api (fun _ => 0)) [65] (-1)).
  lia.
Defined.
